(** * onyx-client: the [filter] command, [cli_error] and [add_fields]

    A shallow embedding of [src/onyx/cli.py].  Python values are
    modelled as follows.

    - [str]: a [string]; every character stands for the code point of
      the same number (code points below 256).
    - the values [json.loads] produces ([None], [bool], [int], [str],
      [list], [dict]): the type [json]; a [dict] is an association list
      in insertion order.  Floating-point numbers are outside the model.
    - an exception that leaves a function: a value of [exn].
    - standard output: the text written so far. *)

From Stdlib Require Import String Ascii List ZArith Bool Arith Lia.
From Stdlib Require Import DecimalString DecimalZ.
Import ListNotations.
Local Open Scope string_scope.

(** ** Characters that cannot be written inside a literal *)

Definition ch_quote : ascii := "034"%char.
Definition ch_backslash : ascii := "092"%char.
Definition ch_lf : ascii := "010"%char.
Definition ch_cr : ascii := "013"%char.
Definition ch_tab : ascii := "009"%char.
Definition ch_bs : ascii := "008"%char.
Definition ch_ff : ascii := "012"%char.

Definition str1 (c : ascii) : string := String c EmptyString.
Definition LF : string := str1 ch_lf.
Definition CRLF : string := String ch_cr (String ch_lf EmptyString).
Definition QUOTE : string := str1 ch_quote.

(** ** Python [str] methods used by the client *)

Module PyStr.

(** [s.split(sep)] for a separator of one character. *)
Fixpoint split (sep : ascii) (s : string) : list string :=
  match s with
  | EmptyString => [EmptyString]
  | String c r =>
      if Ascii.eqb c sep then EmptyString :: split sep r
      else match split sep r with
           | h :: t => String c h :: t
           | [] => [str1 c]
           end
  end.

(** [s.replace(old, new)] for [old] of one character. *)
Fixpoint replace (old : ascii) (new : string) (s : string) : string :=
  match s with
  | EmptyString => EmptyString
  | String c r =>
      if Ascii.eqb c old then new ++ replace old new r
      else String c (replace old new r)
  end.

(** [s[n:]] *)
Fixpoint drop (n : nat) (s : string) : string :=
  match n, s with
  | O, _ => s
  | S _, EmptyString => EmptyString
  | S n', String _ r => drop n' r
  end.

Definition startswith (pre s : string) : bool := String.prefix pre s.

Definition removeprefix (pre s : string) : string :=
  if startswith pre s then drop (String.length pre) s else s.

Definition endswith (suf s : string) : bool :=
  (String.length suf <=? String.length s)%nat
  && (substring (String.length s - String.length suf) (String.length suf) s
      =? suf).

Definition removesuffix (suf s : string) : string :=
  if endswith suf s
  then substring 0 (String.length s - String.length suf) s
  else s.

(** [sep.join(parts)] *)
Definition join (sep : string) (parts : list string) : string :=
  String.concat sep parts.

(** [c in s] *)
Fixpoint contains (c : ascii) (s : string) : bool :=
  match s with
  | EmptyString => false
  | String a r => Ascii.eqb a c || contains c r
  end.

(** [s.count(c)] *)
Fixpoint count (c : ascii) (s : string) : nat :=
  match s with
  | EmptyString => 0
  | String a r => (if Ascii.eqb a c then 1 else 0) + count c r
  end.

(** [str(n)] for an [int]. *)
Definition of_int (z : Z) : string := NilZero.string_of_int (Z.to_int z).

Fixpoint spaces (n : nat) : string :=
  match n with
  | O => EmptyString
  | S n' => String " " (spaces n')
  end.

Definition hex_digit (n : nat) : ascii :=
  match String.get n "0123456789abcdef" with
  | Some c => c
  | None => "0"%char
  end.

(** The two hexadecimal digits of a code point below 256. *)
Definition hex2 (c : ascii) : string :=
  let n := nat_of_ascii c in
  String (hex_digit (n / 16)) (String (hex_digit (n mod 16)) EmptyString).

End PyStr.

(** ** JSON values, as [json.loads] builds them *)

#[warnings="-register-all"]
Inductive json : Type :=
| JNull
| JBool (b : bool)
| JInt (z : Z)
| JStr (s : string)
| JArr (items : list json)
| JObj (members : list (string * json)).

(** An exception raised by the client or by the interpreter. *)
Inductive exn : Type :=
| BadParameter (message param_hint : string)   (* click.BadParameter *)
| ClickException (message : json)              (* click.exceptions.ClickException *)
| PyException (message : string)               (* Exception(...) *)
| KeyError (key : string)
| TypeError
| AttributeError
| ValueError
| NotRenderableError.                          (* rich.errors.NotRenderableError *)

Module Json.

(** Truth value of an object, as [if x:] tests it. *)
Definition truthy (v : json) : bool :=
  match v with
  | JNull => false
  | JBool b => b
  | JInt z => negb (z =? 0)%Z
  | JStr s => negb (s =? "")
  | JArr xs => match xs with [] => false | _ => true end
  | JObj kvs => match kvs with [] => false | _ => true end
  end.

(** [d.get(key)] on a [dict]. *)
Fixpoint dict_get {A : Type} (key : string) (d : list (string * A)) : option A :=
  match d with
  | [] => None
  | (k, v) :: r => if k =? key then Some v else dict_get key r
  end.

(** [d[key] = v] on a [dict]: an existing key keeps its place. *)
Fixpoint dict_set {A : Type} (key : string) (v : A) (d : list (string * A))
  : list (string * A) :=
  match d with
  | [] => [(key, v)]
  | (k, w) :: r =>
      if k =? key then (k, v) :: r else (k, w) :: dict_set key v r
  end.

Definition dict_of_pairs {A : Type} (kvs : list (string * A)) : list (string * A) :=
  fold_left (fun d kv => dict_set (fst kv) (snd kv) d) kvs [].

(** [v[key]] for a string key. *)
Definition getitem (v : json) (key : string) : exn + json :=
  match v with
  | JObj kvs =>
      match dict_get key kvs with
      | Some x => inr x
      | None => inl (KeyError key)
      end
  | _ => inl TypeError
  end.

(** *** The encoder: [json.dumps(v, indent=n)] *)

(** One character of a string literal ([ensure_ascii] is on). *)
Definition encode_char (c : ascii) : string :=
  if Ascii.eqb c ch_quote then String ch_backslash QUOTE
  else if Ascii.eqb c ch_backslash then String ch_backslash (str1 ch_backslash)
  else if Ascii.eqb c ch_lf then String ch_backslash "n"
  else if Ascii.eqb c ch_cr then String ch_backslash "r"
  else if Ascii.eqb c ch_tab then String ch_backslash "t"
  else if Ascii.eqb c ch_bs then String ch_backslash "b"
  else if Ascii.eqb c ch_ff then String ch_backslash "f"
  else if (32 <=? nat_of_ascii c)%nat && (nat_of_ascii c <=? 126)%nat then str1 c
  else String ch_backslash ("u00" ++ PyStr.hex2 c).

Fixpoint encode_chars (s : string) : string :=
  match s with
  | EmptyString => EmptyString
  | String c r => encode_char c ++ encode_chars r
  end.

Definition encode_string (s : string) : string :=
  QUOTE ++ encode_chars s ++ QUOTE.

Definition newline_indent (indent level : nat) : string :=
  LF ++ PyStr.spaces (indent * level).

Fixpoint encode (indent level : nat) (v : json) : string :=
  match v with
  | JNull => "null"
  | JBool true => "true"
  | JBool false => "false"
  | JInt z => PyStr.of_int z
  | JStr s => encode_string s
  | JArr xs =>
      match xs with
      | [] => "[]"
      | _ =>
          "[" ++ newline_indent indent (S level)
          ++ PyStr.join ("," ++ newline_indent indent (S level))
               (map (encode indent (S level)) xs)
          ++ newline_indent indent level ++ "]"
      end
  | JObj kvs =>
      match kvs with
      | [] => "{}"
      | _ =>
          "{" ++ newline_indent indent (S level)
          ++ PyStr.join ("," ++ newline_indent indent (S level))
               (map (fun kv => encode_string (fst kv) ++ ": "
                               ++ encode indent (S level) (snd kv)) kvs)
          ++ newline_indent indent level ++ "}"
      end
  end.

Definition dumps (indent : nat) (v : json) : string := encode indent 0 v.

End Json.

(** ** The decoder: [json.loads]

    A scanner that reads one character at a time, then a parser over
    the tokens.  Number literals with a fraction or an exponent are
    refused (no floating point in the model), and so are [\u] escapes
    of code points from 256 on. *)

Module JsonRead.

Inductive token : Type :=
| TLBrack | TRBrack | TLBrace | TRBrace | TComma | TColon
| TString (s : string)
| TNumber (z : Z)
| TTrue | TFalse | TNull.

Inductive lstate : Type :=
| LIdle                                       (* between tokens *)
| LString (acc : string)                      (* inside a string literal *)
| LEscape (acc : string)                      (* after a backslash *)
| LUnicode (acc : string) (seen value : nat)  (* after backslash-u *)
| LNumber (lit : string)                      (* inside a number literal *)
| LWord (rest : string) (t : token).          (* inside true, false, null *)

Definition is_space (c : ascii) : bool :=
  Ascii.eqb c " " || Ascii.eqb c ch_lf || Ascii.eqb c ch_cr || Ascii.eqb c ch_tab.

Definition is_digit (c : ascii) : bool :=
  (48 <=? nat_of_ascii c)%nat && (nat_of_ascii c <=? 57)%nat.

Definition is_number_char (c : ascii) : bool :=
  is_digit c || Ascii.eqb c "-".

Definition hex_value (c : ascii) : option nat :=
  let n := nat_of_ascii c in
  if is_digit c then Some (n - 48)
  else if (97 <=? n)%nat && (n <=? 102)%nat then Some (n - 87)
  else if (65 <=? n)%nat && (n <=? 70)%nat then Some (n - 55)
  else None.

(** The character an escape letter stands for. *)
Definition unescape (c : ascii) : option ascii :=
  if Ascii.eqb c ch_quote then Some ch_quote
  else if Ascii.eqb c ch_backslash then Some ch_backslash
  else if Ascii.eqb c "/" then Some "/"%char
  else if Ascii.eqb c "b" then Some ch_bs
  else if Ascii.eqb c "f" then Some ch_ff
  else if Ascii.eqb c "n" then Some ch_lf
  else if Ascii.eqb c "r" then Some ch_cr
  else if Ascii.eqb c "t" then Some ch_tab
  else None.

(** An integer literal: the decimal text of its value, or [-0]. *)
Definition number_token (lit : string) : option token :=
  match NilZero.int_of_string lit with
  | Some d =>
      let z := Z.of_int d in
      if (PyStr.of_int z =? lit) || (lit =? "-0") then Some (TNumber z) else None
  | None => None
  end.

Definition step_idle (c : ascii) : option (lstate * list token) :=
  if is_space c then Some (LIdle, [])
  else if Ascii.eqb c "[" then Some (LIdle, [TLBrack])
  else if Ascii.eqb c "]" then Some (LIdle, [TRBrack])
  else if Ascii.eqb c "{" then Some (LIdle, [TLBrace])
  else if Ascii.eqb c "}" then Some (LIdle, [TRBrace])
  else if Ascii.eqb c "," then Some (LIdle, [TComma])
  else if Ascii.eqb c ":" then Some (LIdle, [TColon])
  else if Ascii.eqb c ch_quote then Some (LString EmptyString, [])
  else if is_number_char c then Some (LNumber (str1 c), [])
  else if Ascii.eqb c "t" then Some (LWord "rue" TTrue, [])
  else if Ascii.eqb c "f" then Some (LWord "alse" TFalse, [])
  else if Ascii.eqb c "n" then Some (LWord "ull" TNull, [])
  else None.

Definition step (st : lstate) (c : ascii) : option (lstate * list token) :=
  match st with
  | LIdle => step_idle c
  | LString acc =>
      if Ascii.eqb c ch_quote then Some (LIdle, [TString acc])
      else if Ascii.eqb c ch_backslash then Some (LEscape acc, [])
      else if (nat_of_ascii c <? 32)%nat then None
      else Some (LString (acc ++ str1 c), [])
  | LEscape acc =>
      match unescape c with
      | Some d => Some (LString (acc ++ str1 d), [])
      | None => if Ascii.eqb c "u" then Some (LUnicode acc 0 0, []) else None
      end
  | LUnicode acc seen value =>
      match hex_value c with
      | None => None
      | Some h =>
          let value' := 16 * value + h in
          if (seen =? 3)%nat
          then if (value' <? 256)%nat
               then Some (LString (acc ++ str1 (ascii_of_nat value')), [])
               else None
          else Some (LUnicode acc (S seen) value', [])
      end
  | LNumber lit =>
      if is_number_char c then Some (LNumber (lit ++ str1 c), [])
      else match number_token lit, step_idle c with
           | Some t, Some (st', ts) => Some (st', t :: ts)
           | _, _ => None
           end
  | LWord rest t =>
      match rest with
      | EmptyString => None
      | String e rest' =>
          if Ascii.eqb c e
          then match rest' with
               | EmptyString => Some (LIdle, [t])
               | _ => Some (LWord rest' t, [])
               end
          else None
      end
  end.

(** At the end of the text. *)
Definition finish (st : lstate) : option (list token) :=
  match st with
  | LIdle => Some []
  | LNumber lit => option_map (fun t => [t]) (number_token lit)
  | _ => None
  end.

(** The tokens of a step, put before those of the rest of the text. *)
Definition emit (ts : list token) (rest : option (list token)) : option (list token) :=
  match ts with
  | [] => rest
  | _ => option_map (app ts) rest
  end.

Fixpoint scan (st : lstate) (s : string) : option (list token) :=
  match s with
  | EmptyString => finish st
  | String c r =>
      match step st c with
      | None => None
      | Some (st', ts) => emit ts (scan st' r)
      end
  end.

Definition tokens (s : string) : option (list token) := scan LIdle s.

Fixpoint parse_value (fuel : nat) (ts : list token) : option (json * list token) :=
  match fuel with
  | O => None
  | S fuel' =>
      match ts with
      | TNull :: r => Some (JNull, r)
      | TTrue :: r => Some (JBool true, r)
      | TFalse :: r => Some (JBool false, r)
      | TNumber z :: r => Some (JInt z, r)
      | TString s :: r => Some (JStr s, r)
      | TLBrack :: TRBrack :: r => Some (JArr [], r)
      | TLBrack :: r =>
          match parse_items fuel' r with
          | Some (xs, r') => Some (JArr xs, r')
          | None => None
          end
      | TLBrace :: TRBrace :: r => Some (JObj [], r)
      | TLBrace :: r =>
          match parse_members fuel' r with
          | Some (kvs, r') => Some (JObj (Json.dict_of_pairs kvs), r')
          | None => None
          end
      | _ => None
      end
  end
with parse_items (fuel : nat) (ts : list token) : option (list json * list token) :=
  match fuel with
  | O => None
  | S fuel' =>
      match parse_value fuel' ts with
      | Some (v, TComma :: r) =>
          match parse_items fuel' r with
          | Some (vs, r') => Some (v :: vs, r')
          | None => None
          end
      | Some (v, TRBrack :: r) => Some ([v], r)
      | _ => None
      end
  end
with parse_members (fuel : nat) (ts : list token)
     : option (list (string * json) * list token) :=
  match fuel with
  | O => None
  | S fuel' =>
      match ts with
      | TString k :: TColon :: r =>
          match parse_value fuel' r with
          | Some (v, TComma :: r') =>
              match parse_members fuel' r' with
              | Some (kvs, r'') => Some ((k, v) :: kvs, r'')
              | None => None
              end
          | Some (v, TRBrace :: r') => Some ([(k, v)], r')
          | _ => None
          end
      | _ => None
      end
  end.

(** [json.loads(s)]; [None] stands for [JSONDecodeError]. *)
Definition loads (s : string) : option json :=
  match tokens s with
  | Some ts =>
      match parse_value (S (List.length ts)) ts with
      | Some (v, []) => Some v
      | _ => None
      end
  | None => None
  end.

End JsonRead.

(** ** [str(x)] and [repr(x)] of the values above *)

Module PyRepr.

(** [str.isprintable] on code points below 256. *)
Definition printable (c : ascii) : bool :=
  let n := nat_of_ascii c in
  ((32 <=? n)%nat && (n <=? 126)%nat)
  || ((161 <=? n)%nat && negb (n =? 173)%nat).

Definition repr_char (q c : ascii) : string :=
  if Ascii.eqb c q || Ascii.eqb c ch_backslash then String ch_backslash (str1 c)
  else if Ascii.eqb c ch_tab then String ch_backslash "t"
  else if Ascii.eqb c ch_lf then String ch_backslash "n"
  else if Ascii.eqb c ch_cr then String ch_backslash "r"
  else if printable c then str1 c
  else String ch_backslash ("x" ++ PyStr.hex2 c).

Fixpoint repr_chars (q : ascii) (s : string) : string :=
  match s with
  | EmptyString => EmptyString
  | String c r => repr_char q c ++ repr_chars q r
  end.

Definition repr_str (s : string) : string :=
  let q := if PyStr.contains "'" s && negb (PyStr.contains ch_quote s)
           then ch_quote else "'"%char in
  str1 q ++ repr_chars q s ++ str1 q.

Fixpoint repr (v : json) : string :=
  match v with
  | JNull => "None"
  | JBool true => "True"
  | JBool false => "False"
  | JInt z => PyStr.of_int z
  | JStr s => repr_str s
  | JArr xs => "[" ++ PyStr.join ", " (map repr xs) ++ "]"
  | JObj kvs =>
      "{" ++ PyStr.join ", "
               (map (fun kv => repr_str (fst kv) ++ ": " ++ repr (snd kv)) kvs)
      ++ "}"
  end.

Definition str (v : json) : string :=
  match v with
  | JStr s => s
  | _ => repr v
  end.

End PyRepr.

(** ** [csv.DictWriter] with the default ([excel]) dialect *)

Module Csv.

Record DictWriter : Type := {
  delimiter : ascii;
  fieldnames : list string
}.

(** The text of one field: [None] is written as the empty string. *)
Definition cell (v : json) : string :=
  match v with
  | JNull => EmptyString
  | _ => PyRepr.str v
  end.

(** QUOTE_MINIMAL: quote a field that holds the delimiter, the quote
    character or a character of the line terminator. *)
Definition must_quote (delim : ascii) (s : string) : bool :=
  PyStr.contains delim s || PyStr.contains ch_quote s
  || PyStr.contains ch_cr s || PyStr.contains ch_lf s.

Definition quoted (s : string) : string :=
  QUOTE ++ PyStr.replace ch_quote (QUOTE ++ QUOTE) s ++ QUOTE.

Definition field (delim : ascii) (s : string) : string :=
  if must_quote delim s then quoted s else s.

(** One record; a row that is a single empty field is written quoted. *)
Definition line (delim : ascii) (cells : list string) : string :=
  match cells with
  | [EmptyString] => QUOTE ++ QUOTE ++ CRLF
  | _ => PyStr.join (str1 delim) (map (field delim) cells) ++ CRLF
  end.

Definition writeheader (w : DictWriter) : string :=
  line (delimiter w) (fieldnames w).

(** [writer.writerow(rowdict)] with [extrasaction='raise'] and
    [restval='']: the text written, or the exception. *)
Definition writerow (w : DictWriter) (rowdict : json) : exn + string :=
  match rowdict with
  | JObj kvs =>
      if forallb (fun k => existsb (String.eqb k) (fieldnames w)) (map fst kvs)
      then inr (line (delimiter w)
                  (map (fun k => match Json.dict_get k kvs with
                                 | Some v => cell v
                                 | None => EmptyString
                                 end) (fieldnames w)))
      else inl ValueError
  | _ => inl AttributeError
  end.

End Csv.

(** ** The client *)

(** A [requests.Response]: [ok], [text], and what [json()] returns
    ([None] when it raises [JSONDecodeError]). *)
Record response : Type := {
  ok : bool;
  text : string;
  body : option json
}.

(** What a run of a command leaves behind: the text written to standard
    output, the number of HTTP requests issued, and the exception that
    ended it, if any. *)
Record run : Type := {
  stdout : string;
  requests : nat;
  outcome : option exn
}.

Inductive Formats : Type := JSON | CSV | TSV.

(** The generator [api.client.filter(...)] of records, by what it does
    when it is resumed: return, yield a record, raise [OnyxError] for a
    response, or issue a request and go on. *)
Inductive records : Type :=
| REnd
| RYield (record : json) (rest : records)
| RRaise (resp : response)
| RFetch (rest : records).

Record query : Type := {
  q_project : string;
  q_fields : list (string * list string);
  q_include : option (list string);
  q_exclude : option (list string);
  q_scope : option (list string)
}.

(** The two [filter] generators of the API client: the responses, one
    per request, and the records. *)
Record OnyxClient : Type := {
  base_filter : query -> list response;
  client_filter : query -> records
}.

(** One row of the [rich] table of [fields]. *)
Record row : Type := {
  c_field : string;
  c_status : string;
  c_type : string;
  c_description : string;
  c_values : string
}.

(** The specification of one field, as the [fields] endpoint sends it. *)
#[warnings="-register-all"]
Inductive field_info : Type :=
  FieldInfo (required : bool) (type : string) (description : option string)
            (values : option (list string))
            (fields : option (list (string * field_info))).

Module Cli.

Definition cli_error (response : response) : exn :=
  match body response with
  | None => ClickException (JStr (text response))
  | Some response_json =>
      match Json.getitem response_json "messages" with
      | inl e => e
      | inr (JObj kvs) =>
          match Json.dict_get "detail" kvs with
          | Some detail =>
              if Json.truthy detail then ClickException detail
              else ClickException (JStr (Json.dumps 4 (JObj kvs)))
          | None => ClickException (JStr (Json.dumps 4 (JObj kvs)))
          end
      | inr _ => AttributeError
      end
  end.

(** *** [add_fields] *)

Definition truthy_prefix (prefix : option string) : option string :=
  match prefix with
  | Some p => if p =? "" then None else Some p
  | None => None
  end.

Definition field_row (prefix : option string) (field : string) (info : field_info) : row :=
  match info with
  | FieldInfo required type description values _ =>
      {| c_field := match truthy_prefix prefix with
                    | Some p => "[dim]" ++ p ++ "." ++ field ++ "[/dim]"
                    | None => field
                    end;
         c_status := if required then "[bold red]required[/]"
                     else "[bold cyan]optional[/]";
         c_type := type;
         c_description := match description with Some d => d | None => "" end;
         c_values := match values with
                     | Some (v :: vs) => PyStr.join ", " (v :: vs)
                     | _ => ""
                     end |}
  end.

Definition child_prefix (prefix : option string) (field : string) : option string :=
  match truthy_prefix prefix with
  | Some p => Some (p ++ "." ++ field)
  | None => Some field
  end.

(** The body of the loop of [add_fields] for one item of [data]: the
    table after it, and the exception if one is raised.  The inner
    loop is the recursive call of [add_fields] on the children. *)
Fixpoint add_field (table : list row) (prefix : option string)
         (field : string) (info : field_info) {struct info}
  : list row * option exn :=
  let table1 := (table ++ [field_row prefix field info])%list in
  match info with
  | FieldInfo _ type _ _ fields =>
      if type =? "relation" then
        match fields with
        | None => (table1, Some (KeyError "fields"))
        | Some data =>
            (fix add_fields (table : list row) (data : list (string * field_info))
               : list row * option exn :=
               match data with
               | [] => (table, None)
               | (field', info') :: rest =>
                   match add_field table (child_prefix prefix field) field' info' with
                   | (table', None) => add_fields table' rest
                   | failed => failed
                   end
               end) table1 data
        end
      else (table1, None)
  end.

Fixpoint add_fields (table : list row) (data : list (string * field_info))
         (prefix : option string) : list row * option exn :=
  match data with
  | [] => (table, None)
  | (field, info) :: rest =>
      match add_field table prefix field info with
      | (table', None) => add_fields table' rest prefix
      | failed => failed
      end
  end.

(** *** [filter]: the criteria *)

(** [name, value = name_value.split("=")], with the [BadParameter]
    raised on [ValueError]. *)
Definition parse_criterion (name_value : string) : exn + (string * string) :=
  match PyStr.split "=" name_value with
  | [name; value] => inr (name, value)
  | _ => inl (BadParameter "'name=value' syntax was not used" "'-f' / '--field'")
  end.

(** [fields.setdefault(name, []).append(value)] *)
Fixpoint setdefault_append (name value : string) (fields : list (string * list string))
  : list (string * list string) :=
  match fields with
  | [] => [(name, [value])]
  | (k, vs) :: r =>
      if k =? name then (k, (vs ++ [value])%list) :: r
      else (k, vs) :: setdefault_append name value r
  end.

(** The loop over [field]. *)
Fixpoint add_criteria (field : list string) (fields : list (string * list string))
  : exn + list (string * list string) :=
  match field with
  | [] => inr fields
  | name_value :: rest =>
      match parse_criterion name_value with
      | inl e => inl e
      | inr (name, value) =>
          add_criteria rest
            (setdefault_append (PyStr.replace "." "__" name) value fields)
      end
  end.

Definition build_fields (field : option (list string))
  : exn + list (string * list string) :=
  match field with
  | Some (c :: cs) => add_criteria (c :: cs) []
  | _ => inr []
  end.

(** *** [filter]: the JSON output *)

(** [typer.echo(message)] *)
Definition echo (message : string) (st : run) : run :=
  {| stdout := stdout st ++ message ++ LF;
     requests := requests st;
     outcome := outcome st |}.

Definition raise (e : exn) (st : run) : run :=
  {| stdout := stdout st; requests := requests st; outcome := Some e |}.

Definition fetched (st : run) : run :=
  {| stdout := stdout st; requests := S (requests st); outcome := outcome st |}.

Definition write (s : string) (st : run) : run :=
  {| stdout := stdout st ++ s; requests := requests st; outcome := outcome st |}.

Definition start : run := {| stdout := ""; requests := 0; outcome := None |}.

(** [if result_json["previous"]: ...]: the check and the removal of
    the opening bracket. *)
Definition continue_fragment (previous : json) (rendered_response : string)
  : exn + string :=
  if Json.truthy previous then
    if negb (PyStr.startswith ("[" ++ LF) rendered_response)
    then inl (PyException "Response JSON has invalid start character(s).")
    else inr (PyStr.removeprefix ("[" ++ LF) rendered_response)
  else inr rendered_response.

(** [if result_json["next"]: ...]: the check and the replacement of
    the closing bracket. *)
Definition suspend_fragment (next : json) (rendered_response : string)
  : exn + string :=
  if Json.truthy next then
    if negb (PyStr.endswith ("}" ++ LF ++ "]") rendered_response)
    then inl (PyException "Response JSON has invalid end character(s).")
    else inr (PyStr.removesuffix ("}" ++ LF ++ "]") rendered_response ++ "},")
  else inr rendered_response.

(** The body of the loop over [results], for one response: the text
    to [echo], or the exception raised. *)
Definition json_fragment (result : response) : exn + string :=
  if ok result then
    match body result with
    | None => inl (ClickException (JStr (text result)))
    | Some result_json =>
        match Json.getitem result_json "data" with
        | inl e => inl e
        | inr data =>
            let rendered_response := Json.dumps 4 data in
            match Json.getitem result_json "previous" with
            | inl e => inl e
            | inr previous =>
                match continue_fragment previous rendered_response with
                | inl e => inl e
                | inr rendered_response =>
                    match Json.getitem result_json "next" with
                    | inl e => inl e
                    | inr next => suspend_fragment next rendered_response
                    end
                end
            end
        end
    end
  else inl (cli_error result).

(** The loop over [results]: every response pulled is one request. *)
Fixpoint filter_json (results : list response) (st : run) : run :=
  match results with
  | [] => st
  | result :: rest =>
      match json_fragment result with
      | inr rendered_response =>
          filter_json rest (echo rendered_response (fetched st))
      | inl e => raise e (fetched st)
      end
  end.

(** *** [filter]: the delimited output *)

Inductive pulled : Type :=
| Exhausted
| Got (record : json) (rest : records)
| Failed (resp : response).

(** [next(records, None)], counting the requests on the way. *)
Fixpoint next_record (rs : records) (st : run) : pulled * run :=
  match rs with
  | REnd => (Exhausted, st)
  | RYield record rest => (Got record rest, st)
  | RRaise resp => (Failed resp, st)
  | RFetch rest => next_record rest (fetched st)
  end.

(** [for record in records: writer.writerow(record)] *)
Fixpoint write_rows (writer : Csv.DictWriter) (rs : records) (st : run) : run :=
  match rs with
  | REnd => st
  | RFetch rest => write_rows writer rest (fetched st)
  | RRaise resp => raise (cli_error resp) st
  | RYield record rest =>
      match Csv.writerow writer record with
      | inr text => write_rows writer rest (write text st)
      | inl e => raise e st
      end
  end.

Definition filter_delimited (format : Formats) (rs : records) (st : run) : run :=
  match next_record rs st with
  | (Failed resp, st) => raise (cli_error resp) st
  | (Exhausted, st) => st
  | (Got record rest, st) =>
      if Json.truthy record then
        match record with
        | JObj kvs =>
            let writer :=
              {| Csv.delimiter := match format with TSV => ch_tab | _ => ","%char end;
                 Csv.fieldnames := map fst kvs |} in
            let st := write (Csv.writeheader writer) st in
            match Csv.writerow writer record with
            | inr text => write_rows writer rest (write text st)
            | inl e => raise e st
            end
        | _ => raise AttributeError st
        end
      else st
  end.

(** *** The command

    The run starts once [setup_onyx_api] has returned the client; the
    requests counted are those of the two [filter] generators. *)

Definition filter (client : OnyxClient) (project : string)
           (field include exclude scope : option (list string))
           (format : Formats) : run :=
  match build_fields field with
  | inl e => raise e start
  | inr fields =>
      let q := {| q_project := project; q_fields := fields;
                  q_include := include; q_exclude := exclude;
                  q_scope := scope |} in
      match format with
      | JSON => filter_json (base_filter client q) start
      | _ => filter_delimited format (client_filter client q) start
      end
  end.

End Cli.

From Stdlib Require Import Permutation.

(** ** The tables and the other commands *)

(** A [rich] table: its caption, the titles of its columns, and the
    cells of its rows as [add_row] stores them. *)
Record Table : Type := {
  t_caption : option string;
  t_columns : list string;
  t_rows : list (list json)
}.

(** What an API call of the client gives: the value it returns, or the
    response of the [OnyxError] it raises. *)
Inductive returned (A : Type) : Type :=
| Returned (value : A)
| OnyxError (resp : response).

Arguments Returned {A} value.
Arguments OnyxError {A} resp.

Module Commands.

(** The cell of a column that has a palette: a string found in the
    palette is wrapped in its style, any other value is left as it is;
    looking up a list or a dictionary raises [TypeError] (it cannot be
    hashed). *)
Definition styled (palette : list (string * string)) (value : json) : exn + json :=
  match value with
  | JStr s =>
      match Json.dict_get s palette with
      | Some style => inr (JStr ("[" ++ style ++ "]" ++ s ++ "[/]"))
      | None => inr value
      end
  | JArr _ | JObj _ => inl TypeError
  | _ => inr value
  end.

(** One cell of a row of [create_table]. *)
Definition table_cell (styles : option (list (string * list (string * string))))
           (row : list (string * json)) (key : string) : exn + json :=
  match Json.dict_get key row with
  | None => inl (KeyError key)
  | Some value =>
      match styles with
      | None | Some [] => inr value
      | Some palettes =>
          match Json.dict_get key palettes with
          | None => inr value
          | Some palette => styled palette value
          end
      end
  end.

(** The cells of one row, evaluated from left to right. *)
Fixpoint table_cells (styles : option (list (string * list (string * string))))
         (row : list (string * json)) (keys : list string) : exn + list json :=
  match keys with
  | [] => inr []
  | key :: rest =>
      match table_cell styles row key with
      | inl e => inl e
      | inr c =>
          match table_cells styles row rest with
          | inl e => inl e
          | inr cs => inr (c :: cs)
          end
      end
  end.

(** [table.add_row] applied to the cells, from left to right: [None]
    becomes an empty cell, a string is kept, and for any other value
    of the model (not a string, not renderable) it raises
    [NotRenderableError]. *)
Fixpoint add_row (cells : list json) : exn + list json :=
  match cells with
  | [] => inr []
  | cell :: rest =>
      match cell with
      | JNull | JStr _ =>
          match add_row rest with
          | inl e => inl e
          | inr shown =>
              inr (match cell with JNull => JStr "" | _ => cell end :: shown)
          end
      | _ => inl NotRenderableError
      end
  end.

(** The loop over [data]: the cells of a row are all computed before
    [add_row] is called with them. *)
Fixpoint table_rows (styles : option (list (string * list (string * string))))
         (keys : list string) (data : list (list (string * json))) (table : Table)
  : exn + Table :=
  match data with
  | [] => inr table
  | row :: rest =>
      match table_cells styles row keys with
      | inl e => inl e
      | inr cells =>
          match add_row cells with
          | inl e => inl e
          | inr shown =>
              table_rows styles keys rest
                {| t_caption := t_caption table;
                   t_columns := t_columns table;
                   t_rows := (t_rows table ++ [shown])%list |}
          end
      end
  end.

Definition create_table (data : list (list (string * json)))
           (map : list (string * string))
           (styles : option (list (string * list (string * string))))
  : exn + Table :=
  table_rows styles (List.map snd map) data
    {| t_caption := None; t_columns := List.map fst map; t_rows := [] |}.

Definition projects_map : list (string * string) :=
  [("Project", "project"); ("Action", "action"); ("Scope", "scope")].

Definition projects_styles : list (string * list (string * string)) :=
  [("action", [("view", "bold cyan"); ("add", "bold green");
               ("change", "bold yellow"); ("delete", "bold red")])].

Definition users_map : list (string * string) :=
  [("Username", "username"); ("Email", "email"); ("Site", "site")].

Definition waiting_map : list (string * string) :=
  [("Username", "username"); ("Email", "email"); ("Site", "site");
   ("Date Joined", "date_joined")].

(** A command that prints one table: the table given to
    [console.print], or the exception that ends the command. *)
Definition projects (result : returned (list (list (string * json)))) : exn + Table :=
  match result with
  | Returned projects => create_table projects projects_map (Some projects_styles)
  | OnyxError resp => inl (Cli.cli_error resp)
  end.

Definition profile (result : returned (list (string * json))) : exn + Table :=
  match result with
  | Returned user => create_table [user] users_map None
  | OnyxError resp => inl (Cli.cli_error resp)
  end.

Definition siteusers (result : returned (list (list (string * json)))) : exn + Table :=
  match result with
  | Returned users => create_table users users_map None
  | OnyxError resp => inl (Cli.cli_error resp)
  end.

Definition allusers (result : returned (list (list (string * json)))) : exn + Table :=
  match result with
  | Returned users => create_table users users_map None
  | OnyxError resp => inl (Cli.cli_error resp)
  end.

Definition waiting (result : returned (list (list (string * json)))) : exn + Table :=
  match result with
  | Returned waiting => create_table waiting waiting_map None
  | OnyxError resp => inl (Cli.cli_error resp)
  end.

(** [get]: the text written to standard output, or the exception. *)
Definition get (result : returned json) : exn + string :=
  match result with
  | Returned record => inr (Json.dumps 4 record ++ LF)
  | OnyxError resp => inl (Cli.cli_error resp)
  end.

(** The cells of a row of the table of [fields]. *)
Definition cells_of_row (r : row) : list json :=
  [JStr (c_field r); JStr (c_status r); JStr (c_type r);
   JStr (c_description r); JStr (c_values r)].

(** The reply of the API to [fields], a dictionary: what its keys
    [version] and [fields] hold, when present. *)
Record fields_reply : Type := {
  reply_version : option json;
  reply_fields : option (list (string * field_info))
}.

Definition fields (project : string) (result : returned fields_reply) : exn + Table :=
  match result with
  | Returned reply =>
      match reply_version reply with
      | None => inl (KeyError "version")
      | Some version =>
          let caption := "Fields specification for the '" ++ project
                         ++ "' project. Version: " ++ PyRepr.str version in
          match reply_fields reply with
          | None => inl (KeyError "fields")
          | Some tree =>
              match Cli.add_fields [] tree None with
              | (rows, None) =>
                  inr {| t_caption := Some caption;
                         t_columns := ["Field"; "Status"; "Type"; "Description"; "Values"];
                         t_rows := List.map cells_of_row rows |}
              | (_, Some e) => inl e
              end
          end
      end
  | OnyxError resp => inl (Cli.cli_error resp)
  end.

End Commands.

(** ** Notions used by the statements *)

Module Notions.

(** The criteria of a command line: [field] is [None] when no [-f]
    was given. *)
Definition criteria (field : option (list string)) : list string :=
  match field with
  | Some cs => cs
  | None => []
  end.

(** The values, in the order of the command line, of the criteria
    whose rewritten name is [key]. *)
Fixpoint values_for (key : string) (cs : list string) : list string :=
  match cs with
  | [] => []
  | c :: rest =>
      match PyStr.split "=" c with
      | [name; value] =>
          if PyStr.replace "." "__" name =? key
          then value :: values_for key rest
          else values_for key rest
      | _ => values_for key rest
      end
  end.

(** A stream of records that ends, by return or by [OnyxError],
    before it yields anything. *)
Fixpoint yields_nothing (rs : records) : bool :=
  match rs with
  | REnd => true
  | RRaise _ => true
  | RFetch rest => yields_nothing rest
  | RYield _ _ => false
  end.

(** Two pages of one record each, as the generator of records
    delivers them: a request, a record, a request, a record. *)
Definition two_pages : records :=
  RFetch (RYield (JObj [("a", JStr "1"); ("b", JStr "2")])
    (RFetch (RYield (JObj [("a", JStr "3"); ("b", JStr "4")]) REnd))).

(** An error response whose [detail] is present and empty. *)
Definition empty_detail : response :=
  {| ok := false;
     text := "{" ++ QUOTE ++ "messages" ++ QUOTE ++ ": {" ++ QUOTE ++ "detail"
             ++ QUOTE ++ ": " ++ QUOTE ++ QUOTE ++ "}}";
     body := Some (JObj [("messages", JObj [("detail", JStr "")])]) |}.

(** The nodes of a tree of field specifications in depth-first order,
    every node before its children, each with its path from the root.
    Only a node of type [relation] has children. *)
Fixpoint nodes (path : list string) (name : string) (info : field_info)
  : list (list string * field_info) :=
  match info with
  | FieldInfo _ type _ _ fields =>
      ((path ++ [name])%list, info)
      :: (if type =? "relation" then
            match fields with
            | Some children =>
                flat_map (fun c => nodes (path ++ [name])%list (fst c) (snd c)) children
            | None => []
            end
          else [])
  end.

Definition tree_nodes (data : list (string * field_info))
  : list (list string * field_info) :=
  flat_map (fun c => nodes [] (fst c) (snd c)) data.

(** The row of a node: the name of a top-level field, the dotted path
    of a nested one (marked dim), the status, the type, the
    description, and the values joined by a comma and a space. *)
Definition node_row (n : list string * field_info) : row :=
  match snd n with
  | FieldInfo required type description values _ =>
      {| c_field := match fst n with
                    | [name] => name
                    | path => "[dim]" ++ PyStr.join "." path ++ "[/dim]"
                    end;
         c_status := if required then "[bold red]required[/]"
                     else "[bold cyan]optional[/]";
         c_type := type;
         c_description := match description with Some d => d | None => "" end;
         c_values := match values with
                     | Some vs => PyStr.join ", " vs
                     | None => ""
                     end |}
  end.

(** Every node of type [relation] has its [fields]. *)
Fixpoint complete (info : field_info) : bool :=
  match info with
  | FieldInfo _ type _ _ fields =>
      if type =? "relation" then
        match fields with
        | Some children => forallb (fun c => complete (snd c)) children
        | None => false
        end
      else true
  end.

Definition named (data : list (string * field_info)) : bool :=
  forallb (fun c => negb (fst c =? "")) data.

Definition example_tree : list (string * field_info) :=
  [("sample_id", FieldInfo true "text" None None None);
   ("collection",
    FieldInfo false "relation" None None
      (Some [("country", FieldInfo true "choice" None (Some ["UK"; "FR"]) None)]))].

(** The delimited text of records that all have the keys [keys], in
    that order: the header, then one line per record with its
    values. *)
Definition delimiter_of (format : Formats) : ascii :=
  match format with
  | TSV => ch_tab
  | _ => ","%char
  end.



(** The generator yields the records, then goes on as [rest]. *)
Definition yield_all (recs : list (list (string * json))) (rest : records) : records :=
  fold_right (fun kvs k => RYield (JObj kvs) k) rest recs.

(** An ok page: its body holds the array [data], and [previous] and
    [next] with the given truth values. *)
Definition is_page (r : response) (data : list json) (has_previous has_next : bool)
  : Prop :=
  ok r = true
  /\ exists result_json previous next,
      body r = Some result_json
      /\ Json.getitem result_json "data" = inr (JArr data)
      /\ Json.getitem result_json "previous" = inr previous
      /\ Json.getitem result_json "next" = inr next
      /\ Json.truthy previous = has_previous
      /\ Json.truthy next = has_next.

(** The pages of one result set, with the data of each: page [i] has a
    previous page when [0 < i] and a next page when it is not the last. *)
Definition page_sequence (pages : list response) (datas : list (list json)) : Prop :=
  List.length pages = List.length datas
  /\ forall i page data,
      nth_error pages i = Some page ->
      nth_error datas i = Some data ->
      is_page page data (0 <? i)%nat (S i <? List.length pages)%nat.

(** What the surgery needs: a page after the first is not empty, and a
    page before the last ends with an object. *)
Definition stitchable (datas : list (list json)) : Prop :=
  forall i data,
    nth_error datas i = Some data ->
    (0 < i -> data <> [])
    /\ (S i < List.length datas ->
        exists front members, data = (front ++ [JObj members])%list).

Fixpoint distinct (keys : list string) : bool :=
  match keys with
  | [] => true
  | k :: rest => negb (existsb (String.eqb k) rest) && distinct rest
  end.

(** A value [json.loads] can return: the keys of every object are
    distinct. *)
Fixpoint distinct_keys (v : json) : bool :=
  match v with
  | JArr xs => forallb distinct_keys xs
  | JObj kvs =>
      distinct (map fst kvs) && forallb (fun kv => distinct_keys (snd kv)) kvs
  | _ => true
  end.

(** Two pages, the second one empty. *)
Definition empty_second_page : list response :=
  [ {| ok := true; text := "";
       body := Some (JObj [("data", JArr [JObj [("a", JInt 1)]]);
                           ("previous", JNull); ("next", JStr "cursor=2")]) |};
    {| ok := true; text := "";
       body := Some (JObj [("data", JArr []);
                           ("previous", JStr "cursor=1"); ("next", JNull)]) |} ].

(** Two pages of one record each. *)
Definition two_json_pages : list response :=
  [ {| ok := true; text := "";
       body := Some (JObj [("data", JArr [JObj [("a", JStr "1"); ("b", JStr "2")]]);
                           ("previous", JNull); ("next", JStr "cursor=2")]) |};
    {| ok := true; text := "";
       body := Some (JObj [("data", JArr [JObj [("a", JStr "3"); ("b", JStr "4")]]);
                           ("previous", JStr "cursor=1"); ("next", JNull)]) |} ].

(** The tokens of the text [json.dumps] writes for a value. *)
Fixpoint intercalate (sep : list JsonRead.token) (parts : list (list JsonRead.token))
  : list JsonRead.token :=
  match parts with
  | [] => []
  | [p] => p
  | p :: rest => (p ++ sep ++ intercalate sep rest)%list
  end.

Fixpoint toks (v : json) : list JsonRead.token :=
  match v with
  | JNull => [JsonRead.TNull]
  | JBool true => [JsonRead.TTrue]
  | JBool false => [JsonRead.TFalse]
  | JInt z => [JsonRead.TNumber z]
  | JStr s => [JsonRead.TString s]
  | JArr xs =>
      (JsonRead.TLBrack :: intercalate [JsonRead.TComma] (map toks xs)
       ++ [JsonRead.TRBrack])%list
  | JObj kvs =>
      (JsonRead.TLBrace
       :: intercalate [JsonRead.TComma]
            (map (fun kv => JsonRead.TString (fst kv) :: JsonRead.TColon :: toks (snd kv))
               kvs)
       ++ [JsonRead.TRBrace])%list
  end.

(** A text after which a number literal ends: the empty text, or one
    that starts with a character no number holds. *)
Definition delimited (s : string) : Prop :=
  match s with
  | EmptyString => True
  | String c _ => JsonRead.is_number_char c = false
  end.

(** The scanner, between tokens, reads [text] as the tokens [ts],
    whatever delimited text follows. *)
Definition reads (text : string) (ts : list JsonRead.token) : Prop :=
  forall s, delimited s ->
    JsonRead.scan JsonRead.LIdle (text ++ s)
    = JsonRead.emit ts (JsonRead.scan JsonRead.LIdle s).

(** The same, whatever text follows: for a text that does not end
    inside a number. *)
Definition reads_freely (text : string) (ts : list JsonRead.token) : Prop :=
  forall s,
    JsonRead.scan JsonRead.LIdle (text ++ s)
    = JsonRead.emit ts (JsonRead.scan JsonRead.LIdle s).

(** A text of digits and minus signs. *)
Fixpoint number_text (s : string) : bool :=
  match s with
  | EmptyString => true
  | String c r => JsonRead.is_number_char c && number_text r
  end.

(** The items of an array at the top level, in the text of
    [json.dumps(..., indent=4)]. *)
Definition items_text (xs : list json) : string :=
  PyStr.join ("," ++ Json.newline_indent 4 1) (map (Json.encode 4 1) xs).

(** Pages that all have a previous page, with their data: every one is
    non-empty, and every one but the last has a next page and ends with
    an object. *)
Inductive continuation : list response -> list (list json) -> Prop :=
| continuation_last page data :
    is_page page data true false ->
    data <> [] ->
    continuation [page] [data]
| continuation_more page data front members pages datas :
    is_page page data true true ->
    data = (front ++ [JObj members])%list ->
    continuation pages datas ->
    continuation (page :: pages) (data :: datas).

End Notions.

(** ** Auxiliary notions of the proofs *)

Import JsonRead.

(** The error of a criterion that is not of the form [name=value]. *)
Definition syntax_error : exn :=
  BadParameter "'name=value' syntax was not used" "'-f' / '--field'".

(** The values of a key in the mapping, none when it is absent. *)
Definition entry (key : string) (fields : list (string * list string)) : list string :=
  match Json.dict_get key fields with
  | Some vs => vs
  | None => []
  end.

(** The entry of a key after more values were appended to it. *)
Definition merge (present : option (list string)) (more : list string)
  : option (list string) :=
  match present, more with
  | None, [] => None
  | None, _ => Some more
  | Some vs, _ => Some (vs ++ more)%list
  end.

(** The prefix [add_fields] is called with, for the fields below [path]. *)
Definition prefix_of (path : list string) : option string :=
  match path with
  | [] => None
  | _ => Some (PyStr.join "." path)
  end.

(** A path whose prefix is a true value: no path, or a non-empty text. *)
Definition usable (path : list string) : Prop :=
  path = [] \/ PyStr.join "." path <> "".

(** A token a value can start with does not close an array or an object. *)
Definition opens (t : token) : Prop := t <> TRBrack /\ t <> TRBrace.

(** The parser reads a value back from its tokens, given enough fuel. *)
Definition parses (v : json) : Prop :=
  forall fuel r,
    List.length (Notions.toks v) <= fuel ->
    parse_value fuel (Notions.toks v ++ r) = Some (v, r).


(** ** Notions for the other commands *)

(** The action of a project as the table of [projects] shows it. *)
Definition action_markup (action : string) : string :=
  if action =? "view" then "[bold cyan]view[/]"
  else if action =? "add" then "[bold green]add[/]"
  else if action =? "change" then "[bold yellow]change[/]"
  else if action =? "delete" then "[bold red]delete[/]"
  else action.

(** A project, as a row of the reply: its name, action and scope. *)
Definition is_project (row : list (string * json)) (p : string * string * string) : Prop :=
  Json.dict_get "project" row = Some (JStr (fst (fst p)))
  /\ Json.dict_get "action" row = Some (JStr (snd (fst p)))
  /\ Json.dict_get "scope" row = Some (JStr (snd p)).

(** A character of printable ASCII, or a line feed. *)
Definition plain_char (c : ascii) : bool :=
  Ascii.eqb c ch_lf
  || ((32 <=? nat_of_ascii c)%nat && (nat_of_ascii c <=? 126)%nat).

Fixpoint plain_text (s : string) : bool :=
  match s with
  | EmptyString => true
  | String c r => plain_char c && plain_text r
  end.

(** The last character of a text. *)
Fixpoint last_char (s : string) : option ascii :=
  match s with
  | EmptyString => None
  | String c EmptyString => Some c
  | String _ r => last_char r
  end.

(** The number of values a mapping of criteria holds. *)
Definition total_values (fields : list (string * list string)) : nat :=
  List.length (List.concat (List.map snd fields)).

(** What [add_row] shows for a value: a string as it is, [None] as the
    empty string; no other value of the model can be a cell. *)
Definition shown (v : json) : option json :=
  match v with
  | JStr s => Some (JStr s)
  | JNull => Some (JStr "")
  | _ => None
  end.

(** The row holds, under [key], a value shown as the cell [c]. *)
Definition has_cell (row : list (string * json)) (key : string) (c : json) : Prop :=
  exists v, Json.dict_get key row = Some v /\ shown v = Some c.

(** Every key has a value in the row, and the value can be shown. *)
Definition showable (keys : list string) (row : list (string * json)) : Prop :=
  Forall (fun key => exists c, has_cell row key c) keys.

(** An ok first page whose data are numbers, and an error page. *)
Definition numbers_page : response :=
  {| ok := true; text := "";
     body := Some (JObj [("data", JArr [JInt 1; JInt 2]);
                         ("previous", JNull); ("next", JStr "cursor=2")]) |}.

Definition error_page : response :=
  {| ok := false; text := "Bad Gateway"; body := None |}.

(** A relation without a name, with one child. *)
Definition unnamed_relation : list (string * field_info) :=
  [("", FieldInfo false "relation" None None
          (Some [("x", FieldInfo true "text" None None None)]))].

(** The line a [DictWriter] with the field names [keys] writes for a
    record: the value of every field name, nothing for a field name
    the record lacks. *)
Definition filled_line (delim : ascii) (keys : list string)
           (kvs : list (string * json)) : string :=
  Csv.line delim
    (map (fun k => match Json.dict_get k kvs with
                   | Some v => Csv.cell v
                   | None => ""
                   end) keys).

(** The delimited text of records: nothing for no record; otherwise
    the header of the keys of the first record, then one line per
    record. *)
Definition rows_text (format : Formats) (recs : list (list (string * json)))
  : string :=
  match recs with
  | [] => ""
  | first :: _ =>
      Csv.line (Notions.delimiter_of format) (map fst first)
      ++ String.concat ""
           (map (filled_line (Notions.delimiter_of format) (map fst first)) recs)
  end.

(** Records the delimited output can hold: the first one is not empty,
    and no later one has a key the first one lacks. *)
Definition writable (recs : list (list (string * json))) : Prop :=
  match recs with
  | [] => True
  | first :: rest =>
      first <> [] /\ Forall (fun kvs => incl (map fst kvs) (map fst first)) rest
  end.

(** * Properties *)

(** ** Strings *)

Lemma append_nil_r (s : string) : s ++ "" = s.
Proof. induction s as [|c s IH]; simpl; [reflexivity | now rewrite IH]. Qed.

Lemma append_assoc (a b c : string) : (a ++ b) ++ c = a ++ (b ++ c).
Proof. induction a as [|x a IH]; simpl; [reflexivity | now rewrite IH]. Qed.

Lemma length_append (a b : string) :
  String.length (a ++ b) = String.length a + String.length b.
Proof. induction a as [|x a IH]; simpl; [reflexivity | now rewrite IH]. Qed.

Lemma append_inv_l (a b c : string) : a ++ b = a ++ c -> b = c.
Proof. induction a as [|x a IH]; simpl; intros H; [assumption|]. injection H. exact IH. Qed.

Ltac ascii_cases c d := destruct (Ascii.eqb_spec c d).

(** ** [str.split] and [str.replace] *)

Lemma split_nonempty (sep : ascii) (s : string) : PyStr.split sep s <> [].
Proof.
  destruct s as [|c s]; simpl; [discriminate|].
  destruct (Ascii.eqb c sep); [discriminate|].
  destruct (PyStr.split sep s); discriminate.
Qed.

Lemma split_length (sep : ascii) (s : string) :
  List.length (PyStr.split sep s) = S (PyStr.count sep s).
Proof.
  induction s as [|c s IH]; simpl; [reflexivity|].
  destruct (Ascii.eqb c sep); simpl.
  - now rewrite IH.
  - destruct (PyStr.split sep s) eqn:E; simpl in *; [discriminate | exact IH].
Qed.

Lemma join_cons (sep h : string) (t : list string) :
  t <> [] -> PyStr.join sep (h :: t) = h ++ sep ++ PyStr.join sep t.
Proof. destruct t; [contradiction | reflexivity]. Qed.

Lemma split_join (sep : ascii) (s : string) :
  PyStr.join (str1 sep) (PyStr.split sep s) = s.
Proof.
  induction s as [|c s IH]; [reflexivity|].
  cbn [PyStr.split].
  ascii_cases c sep.
  - subst c. rewrite join_cons by apply split_nonempty. now rewrite IH.
  - destruct (PyStr.split sep s) as [|h t] eqn:E.
    + now destruct (split_nonempty sep s).
    + destruct t as [|h' t].
      * cbn in *. now rewrite IH.
      * rewrite join_cons by discriminate. rewrite join_cons in IH by discriminate.
        cbn [append]. now rewrite IH.
Qed.

Lemma split_parts_clean (sep : ascii) (s : string) :
  Forall (fun p => PyStr.contains sep p = false) (PyStr.split sep s).
Proof.
  induction s as [|c s IH]; simpl.
  - constructor; [reflexivity | constructor].
  - ascii_cases c sep.
    + constructor; [reflexivity | exact IH].
    + destruct (PyStr.split sep s) as [|h t].
      * constructor; [|constructor]. simpl.
        destruct (Ascii.eqb_spec c sep); [contradiction | reflexivity].
      * inversion IH; subst. constructor; [|assumption]. simpl.
        destruct (Ascii.eqb_spec c sep); [contradiction | assumption].
Qed.

Lemma contains_append (c : ascii) (a b : string) :
  PyStr.contains c (a ++ b) = PyStr.contains c a || PyStr.contains c b.
Proof.
  induction a as [|x a IH]; simpl; [reflexivity|].
  now rewrite IH, orb_assoc.
Qed.

Lemma replace_no_old (old : ascii) (new s : string) :
  PyStr.contains old new = false ->
  PyStr.contains old (PyStr.replace old new s) = false.
Proof.
  intros Hnew. induction s as [|c s IH]; simpl; [reflexivity|].
  ascii_cases c old.
  - now rewrite contains_append, Hnew, IH.
  - simpl. destruct (Ascii.eqb_spec c old); [contradiction | exact IH].
Qed.

Lemma replace_append (old : ascii) (new a b : string) :
  PyStr.replace old new (a ++ b) = PyStr.replace old new a ++ PyStr.replace old new b.
Proof.
  induction a as [|c a IH]; simpl; [reflexivity|].
  destruct (Ascii.eqb c old); simpl; rewrite IH; [now rewrite append_assoc | reflexivity].
Qed.

Lemma replace_absent (old : ascii) (new s : string) :
  PyStr.contains old s = false -> PyStr.replace old new s = s.
Proof.
  induction s as [|c s IH]; simpl; [reflexivity|].
  destruct (Ascii.eqb c old); simpl; [discriminate|].
  intros H. now rewrite IH.
Qed.

(** ** Prefixes and suffixes *)

Lemma startswith_append (pre r : string) : PyStr.startswith pre (pre ++ r) = true.
Proof.
  unfold PyStr.startswith. induction pre as [|c pre IH]; simpl.
  - now destruct r.
  - destruct (ascii_dec c c); [exact IH | contradiction].
Qed.

Lemma startswith_inv (pre s : string) :
  PyStr.startswith pre s = true -> exists r, s = pre ++ r.
Proof.
  unfold PyStr.startswith. revert s. induction pre as [|c pre IH]; intros s H.
  - now exists s.
  - destruct s as [|d s]; simpl in H; [discriminate|].
    destruct (ascii_dec c d) as [->|]; [|discriminate].
    destruct (IH _ H) as [r ->]. now exists r.
Qed.

Lemma drop_append (a b : string) : PyStr.drop (String.length a) (a ++ b) = b.
Proof. induction a as [|c a IH]; simpl; [now destruct b | exact IH]. Qed.

Lemma removeprefix_append (pre r : string) : PyStr.removeprefix pre (pre ++ r) = r.
Proof. unfold PyStr.removeprefix. now rewrite startswith_append, drop_append. Qed.

Lemma substring_whole (s : string) : substring 0 (String.length s) s = s.
Proof. induction s as [|c s IH]; simpl; [reflexivity | now rewrite IH]. Qed.

Lemma substring_skip (a b : string) (m : nat) :
  substring (String.length a) m (a ++ b) = substring 0 m b.
Proof. induction a as [|c a IH]; simpl; [reflexivity | exact IH]. Qed.

Lemma substring_head (a b : string) : substring 0 (String.length a) (a ++ b) = a.
Proof.
  induction a as [|c a IH]; simpl; [now destruct b | now rewrite IH].
Qed.

Lemma substring_split (s : string) (k : nat) :
  k <= String.length s ->
  s = substring 0 k s ++ substring k (String.length s - k) s.
Proof.
  revert k. induction s as [|c s IH]; intros k Hk; simpl in *.
  - now destruct k.
  - destruct k as [|k]; simpl.
    + now rewrite substring_whole.
    + f_equal. apply IH. lia.
Qed.

Lemma endswith_append (x suf : string) : PyStr.endswith suf (x ++ suf) = true.
Proof.
  unfold PyStr.endswith. rewrite length_append.
  replace (String.length x + String.length suf - String.length suf)
    with (String.length x) by lia.
  rewrite substring_skip, substring_whole, String.eqb_refl, andb_true_r.
  apply Nat.leb_le. lia.
Qed.

Lemma endswith_inv (suf s : string) :
  PyStr.endswith suf s = true -> exists x, s = x ++ suf.
Proof.
  unfold PyStr.endswith. intros H. apply andb_true_iff in H as [Hlen Heq].
  apply Nat.leb_le in Hlen. apply String.eqb_eq in Heq.
  exists (substring 0 (String.length s - String.length suf) s).
  pose proof (substring_split s (String.length s - String.length suf)) as Hs.
  replace (String.length s - (String.length s - String.length suf))
    with (String.length suf) in Hs by lia.
  rewrite Heq in Hs. apply Hs. lia.
Qed.

Lemma removesuffix_append (x suf : string) : PyStr.removesuffix suf (x ++ suf) = x.
Proof.
  unfold PyStr.removesuffix. rewrite endswith_append, length_append.
  replace (String.length x + String.length suf - String.length suf)
    with (String.length x) by lia.
  apply substring_head.
Qed.

(** The closing text of a page cannot overlap the opening text. *)
Lemma endswith_after_open (rest : string) :
  PyStr.endswith ("}" ++ LF ++ "]") (("[" ++ LF) ++ rest)
  = PyStr.endswith ("}" ++ LF ++ "]") rest.
Proof.
  destruct (PyStr.endswith ("}" ++ LF ++ "]") rest) eqn:E.
  - apply endswith_inv in E as [x ->].
    rewrite <- (append_assoc ("[" ++ LF) x). apply endswith_append.
  - destruct (PyStr.endswith _ (_ ++ rest)) eqn:E'; [|reflexivity].
    apply endswith_inv in E' as [x Hx].
    destruct x as [|c1 [|c2 x]]; simpl in Hx; try discriminate.
    injection Hx as _ _ ->. now rewrite endswith_append in E.
Qed.

(** ** The criteria of [filter] *)

Lemma parse_criterion_fails_iff (name_value : string) :
  Cli.parse_criterion name_value = inl syntax_error
  <-> PyStr.count "=" name_value <> 1.
Proof.
  unfold Cli.parse_criterion.
  pose proof (split_length "=" name_value) as Hlen.
  destruct (PyStr.split "=" name_value) as [|a [|b [|c l]]]; simpl in Hlen.
  - discriminate.
  - split; [intros _; lia | reflexivity].
  - split; [discriminate | intros H; exfalso; lia].
  - split; [intros _; lia | reflexivity].
Qed.

Lemma parse_criterion_splits (name_value : string) :
  PyStr.count "=" name_value = 1 ->
  exists name value,
    Cli.parse_criterion name_value = inr (name, value)
    /\ name_value = name ++ "=" ++ value
    /\ PyStr.contains "=" name = false
    /\ PyStr.contains "=" value = false.
Proof.
  intros Hcount. unfold Cli.parse_criterion.
  pose proof (split_length "=" name_value) as Hlen.
  pose proof (split_join "=" name_value) as Hjoin.
  pose proof (split_parts_clean "=" name_value) as Hclean.
  destruct (PyStr.split "=" name_value) as [|a [|b [|c l]]]; simpl in Hlen; try lia.
  exists a, b. inversion Hclean as [|? ? Ha Hb]. inversion Hb.
  repeat split; try assumption. symmetry. exact Hjoin.
Qed.

Lemma add_criteria_fails (cs : list string) :
  Exists (fun c => PyStr.count "=" c <> 1) cs ->
  forall fields, Cli.add_criteria cs fields = inl syntax_error.
Proof.
  induction 1 as [c cs Hbad | c cs Hex IH]; intros fields; simpl.
  - apply parse_criterion_fails_iff in Hbad. now rewrite Hbad.
  - destruct (Cli.parse_criterion c) as [e | [name value]] eqn:E.
    + unfold Cli.parse_criterion in E.
      destruct (PyStr.split "=" c) as [|a [|b [|d l]]]; inversion E; reflexivity.
    + apply IH.
Qed.

Lemma add_criteria_succeeds (cs : list string) :
  Forall (fun c => PyStr.count "=" c = 1) cs ->
  forall fields, exists fields', Cli.add_criteria cs fields = inr fields'.
Proof.
  induction 1 as [|c cs Hc Hcs IH]; intros fields; simpl.
  - now exists fields.
  - destruct (parse_criterion_splits c Hc) as (name & value & E & _).
    rewrite E. apply IH.
Qed.

Lemma get_setdefault_append (name value key : string) fields :
  Json.dict_get key (Cli.setdefault_append name value fields)
  = if name =? key then Some (entry key fields ++ [value])%list
    else Json.dict_get key fields.
Proof.
  unfold entry. induction fields as [|[k vs] r IH]; simpl.
  - destruct (String.eqb_spec name key); reflexivity.
  - destruct (String.eqb_spec k name) as [->|Hk]; simpl.
    + destruct (String.eqb_spec name key); reflexivity.
    + destruct (String.eqb_spec k key) as [->|Hkey].
      * destruct (String.eqb_spec name key); [congruence | reflexivity].
      * exact IH.
Qed.

Lemma keys_setdefault_append (name value : string) fields :
  map fst (Cli.setdefault_append name value fields)
  = if existsb (fun k => k =? name) (map fst fields)
    then map fst fields
    else (map fst fields ++ [name])%list.
Proof.
  induction fields as [|[k vs] r IH]; simpl; [reflexivity|].
  destruct (String.eqb_spec k name); simpl; [reflexivity|].
  rewrite IH. now destruct (existsb _ _).
Qed.

Lemma add_criteria_lookup (cs : list string) :
  forall fields0 fields key,
    Cli.add_criteria cs fields0 = inr fields ->
    Json.dict_get key fields
    = merge (Json.dict_get key fields0) (Notions.values_for key cs).
Proof.
  induction cs as [|c cs IH]; intros fields0 fields key; simpl.
  - intros [= <-]. destruct (Json.dict_get key fields0); simpl;
      [now rewrite app_nil_r | reflexivity].
  - unfold Cli.parse_criterion.
    destruct (PyStr.split "=" c) as [|name [|value [|x l]]]; try discriminate.
    intros H. rewrite (IH _ _ key H), get_setdefault_append. unfold entry.
    destruct (String.eqb_spec (PyStr.replace "." "__" name) key); [|reflexivity].
    destruct (Json.dict_get key fields0); simpl.
    + now rewrite <- app_assoc.
    + reflexivity.
Qed.

Lemma add_criteria_keys (cs : list string) :
  forall fields0 fields,
    Cli.add_criteria cs fields0 = inr fields ->
    NoDup (map fst fields0) ->
    Forall (fun k => PyStr.contains "." k = false) (map fst fields0) ->
    NoDup (map fst fields)
    /\ Forall (fun k => PyStr.contains "." k = false) (map fst fields).
Proof.
  induction cs as [|c cs IH]; intros fields0 fields; simpl.
  - intros [= <-]. now split.
  - unfold Cli.parse_criterion.
    destruct (PyStr.split "=" c) as [|name [|value [|x l]]]; try discriminate.
    intros H Hnd Hdots. apply (IH _ _ H); rewrite keys_setdefault_append;
      destruct (existsb _ _) eqn:E; try assumption.
    + apply NoDup_app; [assumption | repeat constructor; intros [] |].
      intros k Hin [Hk|[]].
      assert (existsb (fun k' => k' =? k) (map fst fields0) = true) as Hex
        by (apply existsb_exists; exists k; split; [assumption | apply String.eqb_refl]).
      rewrite <- Hk in Hex. congruence.
    + apply Forall_app. split; [assumption|]. constructor; [|constructor].
      now apply replace_no_old.
Qed.

(** C3 (as amended): a criterion is refused, with the parameter error
    naming ['-f' / '--field'], exactly when it does not hold one [=]; a
    criterion with one [=] is cut at it into name and value; criteria
    that all hold one [=] are accepted; and a command line with a
    refused criterion ends in that error with nothing written and no
    request issued. *)
Theorem C3_criterion_needs_one_equals :
  (forall name_value,
      Cli.parse_criterion name_value
      = inl (BadParameter "'name=value' syntax was not used" "'-f' / '--field'")
      <-> PyStr.count "=" name_value <> 1)
  /\ (forall name_value,
         PyStr.count "=" name_value = 1 ->
         exists name value,
           Cli.parse_criterion name_value = inr (name, value)
           /\ name_value = name ++ "=" ++ value
           /\ PyStr.contains "=" name = false
           /\ PyStr.contains "=" value = false)
  /\ (forall field,
         Forall (fun c => PyStr.count "=" c = 1) field ->
         exists fields, Cli.build_fields (Some field) = inr fields)
  /\ (forall client project field include exclude scope format,
         Exists (fun c => PyStr.count "=" c <> 1) field ->
         Cli.filter client project (Some field) include exclude scope format
         = {| stdout := "";
              requests := 0;
              outcome := Some (BadParameter "'name=value' syntax was not used"
                                 "'-f' / '--field'") |}).
Proof.
  split; [exact parse_criterion_fails_iff|].
  split; [exact parse_criterion_splits|].
  split.
  { intros field Hall. destruct field as [|c cs]; [now exists []|].
    exact (add_criteria_succeeds _ Hall []). }
  intros client project field include exclude scope format Hbad.
  unfold Cli.filter, Cli.build_fields.
  destruct field as [|c cs]; [inversion Hbad|].
  now rewrite (add_criteria_fails _ Hbad).
Qed.

Lemma C3_witness :
  Cli.parse_criterion "a.b=1" = inr ("a.b", "1")
  /\ Cli.filter {| base_filter := fun _ => []; client_filter := fun _ => REnd |}
       "project" (Some ["a=1"; "b"]) None None None JSON
     = {| stdout := ""; requests := 0;
          outcome := Some (BadParameter "'name=value' syntax was not used"
                             "'-f' / '--field'") |}.
Proof.
  split.
  - destruct (proj1 (proj2 C3_criterion_needs_one_equals) "a.b=1" eq_refl)
      as (name & value & E & _). reflexivity.
  - apply (proj2 (proj2 (proj2 C3_criterion_needs_one_equals))).
    right. left. simpl. lia.
Defined.

Lemma C3_counterexample :
  ~ ((exists message hint,
         Cli.parse_criterion "a=b=c" = inl (BadParameter message hint))
     <-> PyStr.contains "=" "a=b=c" = false).
Proof.
  intros [H _].
  assert (PyStr.contains "=" "a=b=c" = false) as E
    by (apply H; eexists; eexists; reflexivity).
  discriminate E.
Qed.

(** C9: when the criteria are accepted, the query mapping has one entry
    per rewritten field name, no key holds a dot (every dot of a name
    has become [__]), and the entry of a key is the list of the values
    of the criteria with that rewritten name, in the order they were
    given. *)
Theorem C9_fields_mapping :
  forall field fields,
    Cli.build_fields field = inr fields ->
    NoDup (map fst fields)
    /\ (forall key, In key (map fst fields) -> PyStr.contains "." key = false)
    /\ (forall key,
           Json.dict_get key fields
           = match Notions.values_for key (Notions.criteria field) with
             | [] => None
             | vs => Some vs
             end).
Proof.
  intros field fields H.
  assert (Cli.add_criteria (Notions.criteria field) [] = inr fields) as H'.
  { destruct field as [[|c cs]|]; simpl in *; try assumption; now inversion H. }
  clear H. destruct (add_criteria_keys _ _ _ H') as [Hnd Hdots];
    [constructor | constructor |].
  split; [assumption|]. split.
  - intros key Hin. rewrite Forall_forall in Hdots. now apply Hdots.
  - intros key. rewrite (add_criteria_lookup _ _ _ key H'). simpl.
    now destruct (Notions.values_for key _).
Qed.

Lemma C9_witness :
  Json.dict_get "a__b" [("a__b", ["1"; "3"]); ("c", ["2"])] = Some ["1"; "3"].
Proof.
  rewrite (proj2 (proj2 (C9_fields_mapping (Some ["a.b=1"; "c=2"; "a.b=3"])
                           [("a__b", ["1"; "3"]); ("c", ["2"])] eq_refl)) "a__b").
  reflexivity.
Defined.

(** ** One page of the JSON output *)

Lemma json_fragment_ok result result_json data previous next :
  ok result = true ->
  body result = Some result_json ->
  Json.getitem result_json "data" = inr data ->
  Json.getitem result_json "previous" = inr previous ->
  Json.getitem result_json "next" = inr next ->
  Cli.json_fragment result
  = match Cli.continue_fragment previous (Json.dumps 4 data) with
    | inl e => inl e
    | inr rendered => Cli.suspend_fragment next rendered
    end.
Proof.
  intros Hok Hbody Hdata Hprev Hnext. unfold Cli.json_fragment.
  now rewrite Hok, Hbody, Hdata, Hprev, Hnext.
Qed.

(** C2: for an ok page with a body holding [data], [previous] and
    [next]: a page with a previous page whose rendered text does not
    start with an opening bracket and a newline ends the command with a
    plain [Exception]; a page with a next page whose text does not end
    with a closing brace, a newline and a closing bracket does so too;
    otherwise the opening text is removed (when there is a previous
    page) and the closing text replaced by a brace and a comma (when
    there is a next page). *)
Theorem C2_stitching_checks :
  forall result result_json data previous next,
    ok result = true ->
    body result = Some result_json ->
    Json.getitem result_json "data" = inr data ->
    Json.getitem result_json "previous" = inr previous ->
    Json.getitem result_json "next" = inr next ->
    let rendered := Json.dumps 4 data in
    let has_previous := Json.truthy previous in
    let has_next := Json.truthy next in
    (has_previous = true ->
     PyStr.startswith ("[" ++ LF) rendered = false ->
     Cli.json_fragment result
     = inl (PyException "Response JSON has invalid start character(s)."))
    /\ (has_next = true ->
        PyStr.endswith ("}" ++ LF ++ "]") rendered = false ->
        (has_previous = true -> PyStr.startswith ("[" ++ LF) rendered = true) ->
        Cli.json_fragment result
        = inl (PyException "Response JSON has invalid end character(s)."))
    /\ ((has_previous = true -> PyStr.startswith ("[" ++ LF) rendered = true) ->
        (has_next = true -> PyStr.endswith ("}" ++ LF ++ "]") rendered = true) ->
        exists core,
          rendered = (if has_previous then "[" ++ LF else "") ++ core
                     ++ (if has_next then "}" ++ LF ++ "]" else "")
          /\ Cli.json_fragment result
             = inr (core ++ if has_next then "}," else "")).
Proof.
  intros result result_json data previous next Hok Hbody Hdata Hprev Hnext
         rendered has_previous has_next.
  rewrite (json_fragment_ok _ _ _ _ _ Hok Hbody Hdata Hprev Hnext).
  fold rendered. unfold Cli.continue_fragment, Cli.suspend_fragment.
  fold has_previous has_next.
  split; [|split].
  - intros -> ->. reflexivity.
  - intros -> Hend Hstart. destruct has_previous.
    + specialize (Hstart eq_refl). rewrite Hstart. cbn [negb].
      apply startswith_inv in Hstart as [rest Hrest]. rewrite Hrest in *.
      rewrite removeprefix_append. rewrite endswith_after_open in Hend.
      now rewrite Hend.
    + now rewrite Hend.
  - intros Hstart Hend. destruct has_previous, has_next.
    + specialize (Hstart eq_refl). specialize (Hend eq_refl).
      rewrite Hstart. cbn [negb].
      apply startswith_inv in Hstart as [rest Hrest]. rewrite Hrest in *.
      rewrite endswith_after_open in Hend. rewrite removeprefix_append, Hend.
      apply endswith_inv in Hend as [core ->].
      exists core. now rewrite removesuffix_append.
    + specialize (Hstart eq_refl). rewrite Hstart. cbn [negb].
      apply startswith_inv in Hstart as [rest Hrest]. rewrite Hrest.
      rewrite removeprefix_append. exists rest. now rewrite !append_nil_r.
    + specialize (Hend eq_refl). rewrite Hend. cbn [negb].
      apply endswith_inv in Hend as [core ->].
      exists core. now rewrite removesuffix_append.
    + exists rendered. now rewrite !append_nil_r.
Qed.

Lemma C2_witness :
  Cli.json_fragment
    {| ok := true; text := "";
       body := Some (JObj [("data", JArr []); ("previous", JBool true);
                           ("next", JNull)]) |}
  = inl (PyException "Response JSON has invalid start character(s).").
Proof.
  apply (proj1 (C2_stitching_checks
                  {| ok := true; text := "";
                     body := Some (JObj [("data", JArr []); ("previous", JBool true);
                                         ("next", JNull)]) |}
                  _ (JArr []) (JBool true) JNull
                  eq_refl eq_refl eq_refl eq_refl eq_refl));
    reflexivity.
Defined.

(** ** [cli_error] *)

(** C5 (as amended): when the body is not JSON the raw text is
    reported; when it is an object whose [messages] is an object, a
    [detail] that is present and true (not empty) is reported, and
    otherwise [messages] is reported pretty-printed. *)
Theorem C5_cli_error_report :
  forall response,
    (body response = None ->
     Cli.cli_error response = ClickException (JStr (text response)))
    /\ (forall response_json messages,
           body response = Some response_json ->
           Json.getitem response_json "messages" = inr (JObj messages) ->
           (forall detail,
               Json.dict_get "detail" messages = Some detail ->
               Json.truthy detail = true ->
               Cli.cli_error response = ClickException detail)
           /\ ((Json.dict_get "detail" messages = None
                \/ exists detail, Json.dict_get "detail" messages = Some detail
                                  /\ Json.truthy detail = false) ->
               Cli.cli_error response
               = ClickException (JStr (Json.dumps 4 (JObj messages))))).
Proof.
  intros response. unfold Cli.cli_error. split.
  - intros ->. reflexivity.
  - intros response_json messages -> ->. split.
    + intros detail -> ->. reflexivity.
    + intros [-> | (detail & -> & ->)]; reflexivity.
Qed.

Lemma C5_witness :
  Cli.cli_error
    {| ok := false; text := "";
       body := Some (JObj [("messages", JObj [("detail", JStr "Not found.")])]) |}
  = ClickException (JStr "Not found.").
Proof.
  apply (proj1 (proj2 (C5_cli_error_report
                         {| ok := false; text := "";
                            body := Some (JObj [("messages",
                                                 JObj [("detail", JStr "Not found.")])]) |})
                  _ [("detail", JStr "Not found.")] eq_refl eq_refl)
           (JStr "Not found.") eq_refl eq_refl).
Defined.

Lemma C5_counterexample :
  body Notions.empty_detail
  = Some (JObj [("messages", JObj [("detail", JStr "")])])
  /\ Cli.cli_error Notions.empty_detail <> ClickException (JStr "").
Proof. split; [reflexivity | discriminate]. Qed.

(** ** The delimited output *)

Lemma next_record_nothing (rs : records) :
  Notions.yields_nothing rs = true ->
  forall st,
    stdout (snd (Cli.next_record rs st)) = stdout st
    /\ match fst (Cli.next_record rs st) with
       | Cli.Got _ _ => False
       | _ => True
       end.
Proof.
  induction rs as [| record rest IH | resp | rest IH]; simpl; intros H st;
    try discriminate; try (split; [reflexivity | exact I]).
  destruct (IH H (Cli.fetched st)) as [Hout Hshape]. split; assumption.
Qed.

(** C7: when the stream of records yields nothing, the delimited output
    of [filter] is empty: no header, no rows. *)
Theorem C7_empty_stream_writes_nothing :
  forall client project field include exclude scope format,
    format <> JSON ->
    (forall q, Notions.yields_nothing (client_filter client q) = true) ->
    stdout (Cli.filter client project field include exclude scope format) = "".
Proof.
  intros client project field include exclude scope format Hformat Hnothing.
  unfold Cli.filter. destruct (Cli.build_fields field) as [e | fields]; [reflexivity|].
  set (q := {| q_project := project; q_fields := fields; q_include := include;
               q_exclude := exclude; q_scope := scope |}).
  assert (stdout (Cli.filter_delimited format (client_filter client q) Cli.start) = "")
    as Hgoal.
  { unfold Cli.filter_delimited.
    destruct (next_record_nothing _ (Hnothing q) Cli.start) as [Hout Hshape].
    destruct (Cli.next_record (client_filter client q) Cli.start) as [[| record rest | resp] st];
      simpl in *; [assumption | contradiction | assumption]. }
  destruct format; [contradiction | exact Hgoal | exact Hgoal].
Qed.

Lemma C7_witness :
  stdout (Cli.filter {| base_filter := fun _ => []; client_filter := fun _ => RFetch REnd |}
            "project" None None None None CSV) = "".
Proof.
  apply C7_empty_stream_writes_nothing; [discriminate | reflexivity].
Defined.

(** C10: when the first record pulled is false as a truth value (an
    empty mapping), the delimited output stops there: nothing is
    written, whatever the stream would yield next, and the command ends
    without an error. *)
Theorem C10_falsy_first_record :
  forall format rs st record rest st',
    Cli.next_record rs st = (Cli.Got record rest, st') ->
    Json.truthy record = false ->
    Cli.filter_delimited format rs st = st'
    /\ stdout st' = stdout st
    /\ outcome st' = outcome st.
Proof.
  intros format rs st record rest st' Hnext Hfalsy.
  unfold Cli.filter_delimited. rewrite Hnext, Hfalsy. split; [reflexivity|].
  revert st Hnext. induction rs as [| r k IH | resp | k IH]; simpl; intros st Hnext;
    try discriminate.
  - injection Hnext as _ _ <-. now split.
  - destruct (IH _ Hnext) as [-> ->]. now split.
Qed.

Lemma C10_witness :
  Cli.filter_delimited CSV
    (RFetch (RYield (JObj []) (RYield (JObj [("a", JStr "1")]) REnd))) Cli.start
  = {| stdout := ""; requests := 1; outcome := None |}.
Proof.
  apply (C10_falsy_first_record CSV _ Cli.start (JObj [])
           (RYield (JObj [("a", JStr "1")]) REnd)); reflexivity.
Defined.

(** C6: two records delivered over two pages, one per page, are written
    in CSV as the header of the first record's keys and one row per
    record, in order, every line ended by a carriage return and a line
    feed. *)
Theorem C6_csv_two_pages :
  forall base project include exclude scope,
    Cli.filter {| base_filter := base; client_filter := fun _ => Notions.two_pages |}
      project None include exclude scope CSV
    = {| stdout := "a,b" ++ CRLF ++ "1,2" ++ CRLF ++ "3,4" ++ CRLF;
         requests := 2;
         outcome := None |}.
Proof. reflexivity. Qed.

(** ** [add_fields] *)

Lemma field_info_induction (P : field_info -> Prop) :
  (forall required type description values fields,
      match fields with
      | Some children => Forall (fun c => P (snd c)) children
      | None => True
      end ->
      P (FieldInfo required type description values fields)) ->
  forall info, P info.
Proof.
  intros Hnode.
  refine (fix go (info : field_info) : P info :=
            match info with
            | FieldInfo required type description values fields =>
                Hnode required type description values fields _
            end).
  destruct fields as [children|]; [|exact I].
  induction children as [|c children IH]; constructor; [apply go | exact IH].
Qed.

Lemma add_field_equation table prefix field required type description values fields :
  Cli.add_field table prefix field (FieldInfo required type description values fields)
  = let table1 :=
      (table ++ [Cli.field_row prefix field
                   (FieldInfo required type description values fields)])%list in
    if type =? "relation" then
      match fields with
      | None => (table1, Some (KeyError "fields"))
      | Some data => Cli.add_fields table1 data (Cli.child_prefix prefix field)
      end
    else (table1, None).
Proof.
  cbn [Cli.add_field]. cbv zeta.
  destruct (type =? "relation"); [|reflexivity].
  destruct fields as [data|]; [|reflexivity].
  generalize (table ++ [Cli.field_row prefix field
                          (FieldInfo required type description values (Some data))])%list.
  induction data as [|[f i] rest IH]; intros t; [reflexivity|].
  cbn [Cli.add_fields].
  destruct (Cli.add_field t (Cli.child_prefix prefix field) f i) as [t' [e|]];
    [reflexivity | apply IH].
Qed.

Lemma join_snoc (sep : string) (path : list string) (name : string) :
  path <> [] ->
  PyStr.join sep (path ++ [name]) = PyStr.join sep path ++ sep ++ name.
Proof.
  induction path as [|p path IH]; [contradiction|]. intros _.
  destruct path as [|p' path].
  - reflexivity.
  - change ((p :: p' :: path) ++ [name])%list with (p :: ((p' :: path) ++ [name]))%list.
    rewrite join_cons by (simpl; discriminate).
    rewrite IH by discriminate. rewrite (join_cons sep p (p' :: path)) by discriminate.
    now rewrite !append_assoc.
Qed.

Lemma truthy_prefix_of (path : list string) :
  usable path -> Cli.truthy_prefix (prefix_of path) = prefix_of path.
Proof.
  intros [-> | Hne]; [reflexivity|].
  destruct path as [|p path]; [reflexivity|]. unfold prefix_of, Cli.truthy_prefix.
  destruct (String.eqb_spec (PyStr.join "." (p :: path)) ""); [contradiction | reflexivity].
Qed.

Lemma child_prefix_of (path : list string) (name : string) :
  usable path ->
  Cli.child_prefix (prefix_of path) name = prefix_of (path ++ [name]).
Proof.
  intros Hpath. unfold Cli.child_prefix. rewrite (truthy_prefix_of _ Hpath).
  destruct path as [|p path]; [reflexivity|].
  change (prefix_of ((p :: path) ++ [name]))
    with (Some (PyStr.join "." ((p :: path) ++ [name]))).
  now rewrite join_snoc by discriminate.
Qed.

Lemma usable_snoc (path : list string) (name : string) :
  (path = [] -> name <> "") -> usable (path ++ [name]).
Proof.
  intros Hname. right. destruct path as [|p path].
  - simpl. now apply Hname.
  - rewrite join_snoc by discriminate. intros E.
    apply (f_equal String.length) in E. rewrite !length_append in E. simpl in E. lia.
Qed.

Lemma field_row_node (path : list string) (name : string) (info : field_info) :
  usable path ->
  Cli.field_row (prefix_of path) name info = Notions.node_row ((path ++ [name])%list, info).
Proof.
  intros Hpath. unfold Cli.field_row, Notions.node_row.
  rewrite (truthy_prefix_of _ Hpath).
  destruct info as [required type description values fields]. simpl snd. simpl fst.
  assert (match values with
          | Some (v :: vs) => PyStr.join ", " (v :: vs)
          | _ => ""
          end
          = match values with
            | Some vs => PyStr.join ", " vs
            | None => ""
            end) as -> by now destruct values as [[|v vs]|].
  destruct path as [|p path]; [reflexivity|].
  assert (PyStr.join "." ((p :: path) ++ [name]) ++ "[/dim]"
          = PyStr.join "." (p :: path) ++ "." ++ name ++ "[/dim]") as E
      by (rewrite join_snoc by discriminate; now rewrite !append_assoc).
  destruct path; cbn [prefix_of app] in *; now rewrite E.
Qed.

Lemma add_field_nodes (info : field_info) :
  forall table path name,
    Notions.complete info = true ->
    usable path ->
    (path = [] -> name <> "") ->
    Cli.add_field table (prefix_of path) name info
    = ((table ++ map Notions.node_row (Notions.nodes path name info))%list, None).
Proof.
  induction info as [required type description values fields IH]
    using field_info_induction.
  intros table path name Hcomplete Hpath Hname.
  rewrite add_field_equation. cbv zeta. rewrite (field_row_node _ _ _ Hpath).
  cbn [Notions.nodes Notions.complete] in *.
  destruct (type =? "relation"); [|reflexivity].
  destruct fields as [children|]; [|discriminate].
  rewrite (child_prefix_of _ _ Hpath).
  assert (usable (path ++ [name])) as Hpath' by now apply usable_snoc.
  assert (path ++ [name] <> [])%list as Hne by (destruct path; discriminate).
  cbn [map].
  generalize (Notions.node_row ((path ++ [name])%list,
                                FieldInfo required type description values (Some children))).
  intros r. set (below := map Notions.node_row _).
  replace (table ++ r :: below)%list with ((table ++ [r]) ++ below)%list
    by now rewrite <- app_assoc.
  subst below. generalize (table ++ [r])%list. clear table r.
  induction children as [|[f i] rest IHrest]; intros table.
  - simpl. now rewrite app_nil_r.
  - simpl in Hcomplete. apply andb_true_iff in Hcomplete as [Hi Hrest].
    inversion IH as [|? ? IHi IHrest']; subst.
    cbn [Cli.add_fields flat_map fst snd] in *.
    rewrite (IHi table _ f Hi Hpath') by (intros E; contradiction).
    rewrite map_app, app_assoc. now apply IHrest.
Qed.

Lemma add_fields_nodes (data : list (string * field_info)) :
  forall table,
    Notions.named data = true ->
    forallb (fun c => Notions.complete (snd c)) data = true ->
    Cli.add_fields table data None
    = ((table ++ map Notions.node_row (Notions.tree_nodes data))%list, None).
Proof.
  induction data as [|[f i] rest IH]; intros table Hnamed Hcomplete.
  - simpl. now rewrite app_nil_r.
  - simpl in Hnamed, Hcomplete.
    apply andb_true_iff in Hnamed as [Hf Hnamed].
    apply andb_true_iff in Hcomplete as [Hi Hcomplete].
    cbn [Cli.add_fields]. change None with (prefix_of []) at 1.
    rewrite (add_field_nodes i table [] f Hi).
    + rewrite (IH _ Hnamed Hcomplete). unfold Notions.tree_nodes.
      cbn [flat_map fst snd]. now rewrite map_app, app_assoc.
    + now left.
    + intros _ ->. discriminate Hf.
Qed.

(** C8 (as amended): for a tree of field specifications in which every field of type
    [relation] has its children and every top-level field has a name,
    [add_fields] adds one row per node, in depth-first order with every
    node before its children; the row of a nested node shows the path
    from the root joined by dots, and the values are joined by a comma
    and a space.  For the tree of the example the rows are [sample_id],
    [collection] and [collection.country], the last with [UK, FR]. *)
Theorem C8_field_tree_rows :
  (forall data,
      Notions.named data = true ->
      forallb (fun c => Notions.complete (snd c)) data = true ->
      Cli.add_fields [] data None
      = (map Notions.node_row (Notions.tree_nodes data), None))
  /\ Cli.add_fields [] Notions.example_tree None
     = ([ {| c_field := "sample_id"; c_status := "[bold red]required[/]";
             c_type := "text"; c_description := ""; c_values := "" |};
          {| c_field := "collection"; c_status := "[bold cyan]optional[/]";
             c_type := "relation"; c_description := ""; c_values := "" |};
          {| c_field := "[dim]collection.country[/dim]";
             c_status := "[bold red]required[/]";
             c_type := "choice"; c_description := ""; c_values := "UK, FR" |} ],
        None).
Proof.
  split; [|reflexivity].
  intros data Hnamed Hcomplete. exact (add_fields_nodes data [] Hnamed Hcomplete).
Qed.

Lemma C8_witness :
  Cli.add_fields [] Notions.example_tree None
  = (map Notions.node_row (Notions.tree_nodes Notions.example_tree), None).
Proof.
  apply (proj1 C8_field_tree_rows Notions.example_tree); reflexivity.
Defined.

Lemma C8_counterexample :
  forallb (fun c => Notions.complete (snd c)) unnamed_relation = true
  /\ Cli.add_fields [] unnamed_relation None
     = ([ {| c_field := ""; c_status := "[bold cyan]optional[/]";
             c_type := "relation"; c_description := ""; c_values := "" |};
          {| c_field := "x"; c_status := "[bold red]required[/]";
             c_type := "text"; c_description := ""; c_values := "" |} ],
        None)
  /\ map Notions.node_row (Notions.tree_nodes unnamed_relation)
     = [ {| c_field := ""; c_status := "[bold cyan]optional[/]";
            c_type := "relation"; c_description := ""; c_values := "" |};
         {| c_field := "[dim].x[/dim]"; c_status := "[bold red]required[/]";
            c_type := "text"; c_description := ""; c_values := "" |} ]
  /\ Cli.add_fields [] unnamed_relation None
     <> (map Notions.node_row (Notions.tree_nodes unnamed_relation), None).
Proof.
  repeat split; try reflexivity. discriminate.
Qed.

(** ** Partial output, then the error of a page *)



Lemma concat_cons (x : string) (l : list string) :
  String.concat "" (x :: l) = x ++ String.concat "" l.
Proof. destruct l; simpl; [now rewrite append_nil_r | reflexivity]. Qed.





(** ** The scanner on the text of the encoder *)


Lemma emit_emit (a b : list token) (x : option (list token)) :
  emit a (emit b x) = emit (a ++ b) x.
Proof.
  destruct a as [|t a]; [reflexivity|].
  destruct b as [|u b]; [now rewrite app_nil_r|].
  destruct x as [x|]; simpl; [|reflexivity].
  now rewrite <- app_assoc.
Qed.

Lemma delimited_append (a s : string) :
  a <> "" -> Notions.delimited a -> Notions.delimited (a ++ s).
Proof. destruct a; [contradiction | intros _ H; exact H]. Qed.

Lemma reads_of_freely (a : string) (ta : list token) :
  Notions.reads_freely a ta -> Notions.reads a ta.
Proof. intros Ha s _. apply Ha. Qed.

Lemma reads_after (a b : string) (ta tb : list token) :
  Notions.reads_freely a ta ->
  Notions.reads b tb ->
  Notions.reads (a ++ b) (ta ++ tb).
Proof.
  intros Ha Hb s Hs. now rewrite append_assoc, Ha, (Hb s Hs), emit_emit.
Qed.

Lemma freely_after (a b : string) (ta tb : list token) :
  Notions.reads_freely a ta ->
  Notions.reads_freely b tb ->
  Notions.reads_freely (a ++ b) (ta ++ tb).
Proof.
  intros Ha Hb s. now rewrite append_assoc, Ha, Hb, emit_emit.
Qed.

Lemma reads_append (a b : string) (ta tb : list token) :
  Notions.reads a ta ->
  Notions.reads_freely b tb ->
  b <> "" ->
  Notions.delimited b ->
  Notions.reads (a ++ b) (ta ++ tb).
Proof.
  intros Ha Hb Hne Hstart s Hs.
  rewrite append_assoc, Ha, Hb, emit_emit; [reflexivity|].
  now apply delimited_append.
Qed.

Lemma freely_spaces (n : nat) : Notions.reads_freely (PyStr.spaces n) [].
Proof. intros s. induction n as [|n IH]; [reflexivity | exact IH]. Qed.

Lemma freely_newline_indent (indent level : nat) :
  Notions.reads_freely (Json.newline_indent indent level) [].
Proof. intros s. unfold Json.newline_indent. simpl. apply freely_spaces. Qed.

Lemma freely_step (c : ascii) (ts : list token) :
  step_idle c = Some (LIdle, ts) -> Notions.reads_freely (str1 c) ts.
Proof. intros H s. cbn [str1 append scan step]. now rewrite H. Qed.

Lemma scan_encode_char (c : ascii) (acc r : string) :
  scan (LString acc) (Json.encode_char c ++ r) = scan (LString (acc ++ str1 c)) r.
Proof. destruct c as [[] [] [] [] [] [] [] []]; reflexivity. Qed.

Lemma scan_encode_chars (str acc r : string) :
  scan (LString acc) (Json.encode_chars str ++ String ch_quote r)
  = emit [TString (acc ++ str)] (scan LIdle r).
Proof.
  revert acc. induction str as [|c str IH]; intros acc.
  - simpl. now rewrite append_nil_r.
  - cbn [Json.encode_chars]. rewrite append_assoc, scan_encode_char, IH.
    now rewrite append_assoc.
Qed.

Lemma freely_string (str : string) :
  Notions.reads_freely (Json.encode_string str) [TString str].
Proof.
  intros s. unfold Json.encode_string, QUOTE, str1.
  rewrite !append_assoc. cbn [append]. simpl scan at 1.
  exact (scan_encode_chars str "" s).
Qed.

Lemma uint_number_text (d : Decimal.uint) :
  Notions.number_text (NilEmpty.string_of_uint d) = true.
Proof. induction d; simpl; assumption || reflexivity. Qed.

Lemma of_int_number_text (z : Z) :
  Notions.number_text (PyStr.of_int z) = true /\ PyStr.of_int z <> "".
Proof.
  unfold PyStr.of_int, NilZero.string_of_int, NilZero.string_of_uint.
  destruct z as [|p|p]; simpl.
  - split; [reflexivity | discriminate].
  - pose proof (DecimalPos.Unsigned.to_uint_nonnil p) as Hnil.
    destruct (Pos.to_uint p) eqn:E; try contradiction;
      (split; [apply (uint_number_text (_ u)) | discriminate]).
  - split; [|discriminate].
    destruct (Pos.to_uint p) eqn:E; try reflexivity; apply (uint_number_text (_ u)).
Qed.

Lemma number_token_of_int (z : Z) : number_token (PyStr.of_int z) = Some (TNumber z).
Proof.
  unfold number_token, PyStr.of_int. rewrite NilZero.isi.
  - now rewrite DecimalZ.of_to, String.eqb_refl.
  - destruct z as [|p|p]; simpl; try discriminate.
    intros [= E]. now apply (DecimalPos.Unsigned.to_uint_nonnil p).
  - destruct z as [|p|p]; simpl; try discriminate.
    intros [= E]. now apply (DecimalPos.Unsigned.to_uint_nonnil p).
Qed.

Lemma step_idle_number (c : ascii) :
  is_number_char c = true -> step_idle c = Some (LNumber (str1 c), []).
Proof. destruct c as [[] [] [] [] [] [] [] []]; intros H; try discriminate H; reflexivity. Qed.

Lemma scan_number (lit acc s : string) :
  Notions.number_text lit = true ->
  scan (LNumber acc) (lit ++ s) = scan (LNumber (acc ++ lit)) s.
Proof.
  revert acc. induction lit as [|c lit IH]; intros acc H.
  - simpl. now rewrite append_nil_r.
  - simpl in H. apply andb_true_iff in H as [Hc Hlit].
    cbn [append scan step]. rewrite Hc. cbn [emit].
    rewrite (IH _ Hlit). now rewrite append_assoc.
Qed.

Lemma scan_number_end (lit s : string) (t : token) :
  Notions.delimited s ->
  number_token lit = Some t ->
  scan (LNumber lit) s = emit [t] (scan LIdle s).
Proof.
  intros Hs Ht. destruct s as [|c r].
  - cbn [scan finish]. now rewrite Ht.
  - cbn [scan step]. unfold Notions.delimited in Hs. rewrite Hs, Ht.
    destruct (step_idle c) as [[st' ts]|]; [|reflexivity].
    symmetry. apply (emit_emit [t] ts).
Qed.

Lemma reads_int (z : Z) : Notions.reads (PyStr.of_int z) [TNumber z].
Proof.
  intros s Hs. destruct (of_int_number_text z) as [Hnum Hne].
  pose proof (number_token_of_int z) as Htok.
  destruct (PyStr.of_int z) as [|c lit]; [contradiction|].
  simpl in Hnum. apply andb_true_iff in Hnum as [Hc Hlit].
  cbn [append scan step]. rewrite (step_idle_number _ Hc). cbn [emit].
  rewrite (scan_number _ _ _ Hlit). now apply scan_number_end.
Qed.

(** ** Induction on values *)

Lemma json_induction (P : json -> Prop) :
  P JNull ->
  (forall b, P (JBool b)) ->
  (forall z, P (JInt z)) ->
  (forall s, P (JStr s)) ->
  (forall xs, Forall P xs -> P (JArr xs)) ->
  (forall kvs, Forall (fun kv => P (snd kv)) kvs -> P (JObj kvs)) ->
  forall v, P v.
Proof.
  intros Hnull Hbool Hint Hstr Harr Hobj.
  refine (fix go (v : json) : P v :=
            match v with
            | JNull => Hnull
            | JBool b => Hbool b
            | JInt z => Hint z
            | JStr s => Hstr s
            | JArr xs => Harr xs _
            | JObj kvs => Hobj kvs _
            end).
  - induction xs as [|x xs IH]; constructor; [apply go | exact IH].
  - induction kvs as [|kv kvs IH]; constructor; [apply go | exact IH].
Qed.

Lemma delimited_separator (indent level : nat) (s : string) :
  Notions.delimited (("," ++ Json.newline_indent indent level) ++ s).
Proof. reflexivity. Qed.

Lemma delimited_newline_indent (indent level : nat) (s : string) :
  Notions.delimited (Json.newline_indent indent level ++ s).
Proof. reflexivity. Qed.

Lemma freely_separator (indent level : nat) :
  Notions.reads_freely ("," ++ Json.newline_indent indent level) [TComma].
Proof.
  apply (freely_after "," _ [TComma] []); [now apply freely_step|].
  apply freely_newline_indent.
Qed.

(** The items of an array or of an object, with their separators. *)
Lemma reads_joined {A : Type} (enc : A -> string) (tk : A -> list token)
      (indent level : nat) (xs : list A) :
  Forall (fun x => Notions.reads (enc x) (tk x)) xs ->
  xs <> [] ->
  Notions.reads
    (PyStr.join ("," ++ Json.newline_indent indent level) (map enc xs))
    (Notions.intercalate [TComma] (map tk xs)).
Proof.
  induction 1 as [|x xs Hx Hxs IH]; [intros H; exfalso; now apply H|]. intros _.
  destruct xs as [|y xs]; [exact Hx|].
  cbn [map]. rewrite join_cons by discriminate.
  change (Notions.intercalate [TComma] (tk x :: tk y :: map tk xs))
    with (tk x ++ [TComma] ++ Notions.intercalate [TComma] (map tk (y :: xs)))%list.
  intros s Hs. rewrite append_assoc. rewrite Hx by exact eq_refl.
  rewrite <- emit_emit. f_equal.
  apply (reads_after _ _ [TComma] _ (freely_separator indent level)); [|assumption].
  apply IH. discriminate.
Qed.

Lemma reads_encode (indent : nat) (v : json) :
  forall level, Notions.reads (Json.encode indent level v) (Notions.toks v).
Proof.
  induction v as [| b | z | str | xs IH | kvs IH] using json_induction; intros level.
  - intros s _. reflexivity.
  - destruct b; intros s _; reflexivity.
  - apply reads_int.
  - apply reads_of_freely, freely_string.
  - destruct xs as [|x xs].
    { apply reads_of_freely, (freely_after "[" "]" [TLBrack] [TRBrack]);
        now apply freely_step. }
    cbn [Json.encode Notions.toks].
    apply (reads_after "[" _ [TLBrack]); [now apply freely_step|].
    apply (reads_after _ _ []); [apply freely_newline_indent|].
    apply reads_append.
    + apply reads_joined; [|discriminate].
      eapply Forall_impl; [|exact IH]. intros a Ha. apply Ha.
    + apply (freely_after _ "]" [] [TRBrack]);
        [apply freely_newline_indent | now apply freely_step].
    + discriminate.
    + reflexivity.
  - destruct kvs as [|kv kvs].
    { apply reads_of_freely, (freely_after "{" "}" [TLBrace] [TRBrace]);
        now apply freely_step. }
    cbn [Json.encode Notions.toks].
    apply (reads_after "{" _ [TLBrace]); [now apply freely_step|].
    apply (reads_after _ _ []); [apply freely_newline_indent|].
    apply reads_append.
    + apply (reads_joined
               (fun kv => Json.encode_string (fst kv) ++ ": "
                          ++ Json.encode indent (S level) (snd kv))
               (fun kv => TString (fst kv) :: TColon :: Notions.toks (snd kv)));
        [|discriminate].
      eapply Forall_impl; [|exact IH]. intros a Ha.
      apply (reads_after _ _ [TString (fst a)] (TColon :: Notions.toks (snd a)));
        [apply freely_string|].
      apply (reads_after ": " _ [TColon]); [|apply Ha].
      intros s. reflexivity.
    + apply (freely_after _ "}" [] [TRBrace]);
        [apply freely_newline_indent | now apply freely_step].
    + discriminate.
    + reflexivity.
Qed.

(** ** The parser on the tokens of the encoder *)

Lemma dict_set_fresh {A : Type} (k : string) (v : A) (d : list (string * A)) :
  existsb (String.eqb k) (map fst d) = false ->
  Json.dict_set k v d = (d ++ [(k, v)])%list.
Proof.
  induction d as [|[k' w] d IH]; simpl; [reflexivity|].
  intros H. apply orb_false_iff in H as [Hk Hd].
  rewrite String.eqb_sym, Hk. now rewrite IH.
Qed.

Lemma dict_of_pairs_from {A : Type} (kvs : list (string * A)) :
  forall d,
    Notions.distinct (map fst kvs) = true ->
    (forall k, In k (map fst kvs) -> existsb (String.eqb k) (map fst d) = false) ->
    fold_left (fun d kv => Json.dict_set (fst kv) (snd kv) d) kvs d = (d ++ kvs)%list.
Proof.
  induction kvs as [|[k v] kvs IH]; intros d Hdistinct Hfresh.
  - simpl. now rewrite app_nil_r.
  - cbn [map fst Notions.distinct] in Hdistinct.
    apply andb_true_iff in Hdistinct as [Hk Hdistinct].
    apply negb_true_iff in Hk.
    cbn [fold_left fst snd]. rewrite dict_set_fresh by (apply Hfresh; now left).
    rewrite IH; [now rewrite <- app_assoc | assumption |].
    intros k' Hin. rewrite map_app, existsb_app.
    rewrite (Hfresh k') by now right. simpl. rewrite orb_false_r.
    destruct (String.eqb_spec k' k) as [->|]; [|reflexivity].
    assert (existsb (String.eqb k) (map fst kvs) = true) as E; [|congruence].
    apply existsb_exists. exists k. split; [assumption | apply String.eqb_refl].
Qed.

Lemma dict_of_pairs_distinct {A : Type} (kvs : list (string * A)) :
  Notions.distinct (map fst kvs) = true -> Json.dict_of_pairs kvs = kvs.
Proof.
  intros H. unfold Json.dict_of_pairs. now rewrite dict_of_pairs_from.
Qed.

Lemma toks_head (v : json) : exists t ts, Notions.toks v = t :: ts /\ opens t.
Proof.
  destruct v as [| [] | z | s | xs | kvs]; simpl; eexists; eexists;
    (split; [reflexivity | split; discriminate]).
Qed.

Lemma parse_array (fuel : nat) (t : token) (r : list token) :
  opens t ->
  parse_value (S fuel) (TLBrack :: t :: r)
  = match parse_items fuel (t :: r) with
    | Some (xs, r') => Some (JArr xs, r')
    | None => None
    end.
Proof. intros [H _]. destruct t; try reflexivity. contradiction. Qed.

Lemma parse_items_toks (xs : list json) :
  Forall parses xs ->
  xs <> [] ->
  forall fuel r,
    List.length (Notions.intercalate [TComma] (map Notions.toks xs)) < fuel ->
    parse_items fuel (Notions.intercalate [TComma] (map Notions.toks xs) ++ TRBrack :: r)
    = Some (xs, r).
Proof.
  induction 1 as [|x xs Hx Hxs IH]; [intros H; exfalso; now apply H|]. intros _ fuel r Hfuel.
  destruct fuel as [|fuel]; [lia|].
  destruct xs as [|y xs].
  - cbn [map Notions.intercalate] in *. cbn [parse_items].
    rewrite Hx by lia. reflexivity.
  - change (Notions.intercalate [TComma] (map Notions.toks (x :: y :: xs)))
      with (Notions.toks x ++ [TComma]
            ++ Notions.intercalate [TComma] (map Notions.toks (y :: xs)))%list in *.
    rewrite !length_app in Hfuel. cbn [List.length] in Hfuel.
    rewrite <- !app_assoc. cbn [parse_items].
    rewrite Hx by lia. cbn [app]. rewrite IH by (discriminate || lia). reflexivity.
Qed.

Lemma parse_members_toks (kvs : list (string * json)) :
  Forall (fun kv => parses (snd kv)) kvs ->
  kvs <> [] ->
  forall fuel r,
    List.length (Notions.intercalate [TComma]
                   (map (fun kv => TString (fst kv) :: TColon :: Notions.toks (snd kv)) kvs))
    < fuel ->
    parse_members fuel
      (Notions.intercalate [TComma]
         (map (fun kv => TString (fst kv) :: TColon :: Notions.toks (snd kv)) kvs)
       ++ TRBrace :: r)
    = Some (kvs, r).
Proof.
  induction 1 as [|[k v] kvs Hv Hkvs IH]; [intros H; exfalso; now apply H|].
  intros _ fuel r Hfuel.
  destruct fuel as [|fuel]; [lia|]. cbn [fst snd] in Hv.
  destruct kvs as [|kv kvs].
  - cbn [map Notions.intercalate fst snd List.length] in *. cbn [parse_members app].
    rewrite Hv by lia. reflexivity.
  - set (member := fun kv : string * json =>
                     TString (fst kv) :: TColon :: Notions.toks (snd kv)) in *.
    change (Notions.intercalate [TComma] (map member ((k, v) :: kv :: kvs)))
      with ((TString k :: TColon :: Notions.toks v) ++ [TComma]
            ++ Notions.intercalate [TComma] (map member (kv :: kvs)))%list in *.
    rewrite !length_app in Hfuel. cbn [List.length] in Hfuel.
    rewrite <- !app_assoc. cbn [parse_members app].
    rewrite Hv by lia. rewrite IH by (discriminate || lia). reflexivity.
Qed.

Lemma parse_toks (v : json) : Notions.distinct_keys v = true -> parses v.
Proof.
  induction v as [| b | z | str | xs IH | kvs IH] using json_induction;
    intros Hdistinct fuel r Hfuel;
    try (destruct fuel as [|fuel]; [simpl in Hfuel; lia | reflexivity]).
  - destruct b; (destruct fuel as [|fuel]; [simpl in Hfuel; lia | reflexivity]).
  - destruct xs as [|x xs];
      [destruct fuel as [|fuel]; [simpl in Hfuel; lia | reflexivity]|].
    assert (Forall parses (x :: xs)) as Hall.
    { cbn [Notions.distinct_keys] in Hdistinct. rewrite forallb_forall in Hdistinct.
      rewrite Forall_forall in *. intros y Hy. apply (IH y Hy). now apply Hdistinct. }
    pose proof (parse_items_toks _ Hall) as Hitems.
    cbn [Notions.toks] in *. cbn [List.length] in Hfuel. rewrite length_app in Hfuel.
    cbn [List.length] in Hfuel. destruct fuel as [|fuel]; [lia|].
    set (inner := Notions.intercalate [TComma] (map Notions.toks (x :: xs))) in *.
    assert (exists t ts, inner = t :: ts /\ opens t) as (t & ts & Einner & Ht).
    { subst inner. destruct (toks_head x) as (t & ts & E & Ht).
      destruct xs; cbn [map Notions.intercalate]; rewrite E; eexists; eexists;
        (split; [reflexivity | assumption]). }
    cbn [app]. rewrite <- app_assoc. cbn [app].
    specialize (Hitems ltac:(discriminate) fuel r ltac:(lia)).
    rewrite Einner in *. cbn [app] in *. rewrite (parse_array _ _ _ Ht).
    now rewrite Hitems.
  - destruct kvs as [|kv kvs];
      [destruct fuel as [|fuel]; [simpl in Hfuel; lia | reflexivity]|].
    cbn [Notions.distinct_keys] in Hdistinct.
    apply andb_true_iff in Hdistinct as [Hkeys Hvalues].
    assert (Forall (fun kv => parses (snd kv)) (kv :: kvs)) as Hall.
    { rewrite forallb_forall in Hvalues.
      rewrite Forall_forall in *. intros y Hy. apply (IH y Hy). now apply Hvalues. }
    pose proof (parse_members_toks _ Hall) as Hmembers.
    cbn [Notions.toks] in *. cbn [List.length] in Hfuel. rewrite length_app in Hfuel.
    cbn [List.length] in Hfuel. destruct fuel as [|fuel]; [lia|].
    specialize (Hmembers ltac:(discriminate) fuel r ltac:(lia)).
    cbn [app]. rewrite <- app_assoc. cbn [app].
    destruct kv as [k v]. destruct kvs as [|kv' kvs].
    + cbn [map Notions.intercalate fst snd app] in *.
      cbn [parse_value]. rewrite Hmembers.
      now rewrite (dict_of_pairs_distinct [(k, v)]).
    + set (member := fun kv : string * json =>
                       TString (fst kv) :: TColon :: Notions.toks (snd kv)) in *.
      change (Notions.intercalate [TComma] (map member ((k, v) :: kv' :: kvs)))
        with ((TString k :: TColon :: Notions.toks v) ++ [TComma]
              ++ Notions.intercalate [TComma] (map member (kv' :: kvs)))%list in *.
      cbn [app] in *. cbn [parse_value]. rewrite Hmembers.
      now rewrite dict_of_pairs_distinct.
Qed.

(** [json.loads] reads back what [json.dumps] wrote, also when white
    space follows. *)
Lemma loads_encode (indent : nat) (v : json) (trailer : string) :
  Notions.distinct_keys v = true ->
  scan LIdle trailer = Some [] ->
  Notions.delimited trailer ->
  loads (Json.dumps indent v ++ trailer) = Some v.
Proof.
  intros Hdistinct Htrailer Hdelimited. unfold loads, tokens, Json.dumps.
  rewrite (reads_encode indent v 0 trailer Hdelimited), Htrailer.
  destruct (toks_head v) as (t & ts & E & _).
  assert (emit (Notions.toks v) (Some []) = Some (Notions.toks v ++ [])%list) as ->
      by now rewrite E.
  rewrite (parse_toks v Hdistinct); [reflexivity|].
  rewrite app_nil_r. lia.
Qed.

(** ** The stitched output *)

Lemma join_app (sep : string) (xs ys : list string) :
  xs <> [] -> ys <> [] ->
  PyStr.join sep (xs ++ ys) = PyStr.join sep xs ++ sep ++ PyStr.join sep ys.
Proof.
  induction xs as [|x xs IH]; [contradiction|]. intros _ Hys.
  destruct xs as [|x' xs].
  - cbn [app]. now rewrite join_cons.
  - change ((x :: x' :: xs) ++ ys)%list with (x :: ((x' :: xs) ++ ys))%list.
    rewrite join_cons by (simpl; discriminate).
    rewrite IH by (discriminate || assumption).
    rewrite (join_cons sep x (x' :: xs)) by discriminate.
    now rewrite !append_assoc.
Qed.

Lemma items_text_app (xs ys : list json) :
  xs <> [] -> ys <> [] ->
  Notions.items_text (xs ++ ys)
  = Notions.items_text xs ++ ("," ++ LF ++ "    ") ++ Notions.items_text ys.
Proof.
  intros Hxs Hys. unfold Notions.items_text. rewrite map_app.
  apply join_app; [destruct xs | destruct ys]; (contradiction || discriminate).
Qed.

Lemma dumps_array (xs : list json) :
  xs <> [] ->
  Json.dumps 4 (JArr xs) = ("[" ++ LF) ++ "    " ++ Notions.items_text xs ++ LF ++ "]".
Proof. destruct xs; [contradiction | reflexivity]. Qed.

Lemma encode_object_end (indent level : nat) (members : list (string * json)) :
  exists y, Json.encode indent level (JObj members) = y ++ "}".
Proof.
  destruct members as [|m members].
  - now exists "{".
  - cbn [Json.encode]. eexists. rewrite <- !append_assoc. reflexivity.
Qed.

Lemma items_text_end (front : list json) (members : list (string * json)) :
  exists y, Notions.items_text (front ++ [JObj members]) = y ++ "}".
Proof.
  destruct (encode_object_end 4 1 members) as [y Hy].
  destruct front as [|x front].
  - exists y. exact Hy.
  - rewrite items_text_app by discriminate.
    change (Notions.items_text [JObj members]) with (Json.encode 4 1 (JObj members)).
    rewrite Hy. eexists. rewrite <- !append_assoc. reflexivity.
Qed.

Lemma continue_opened (previous : json) (r : string) :
  Json.truthy previous = true ->
  Cli.continue_fragment previous (("[" ++ LF) ++ r) = inr r.
Proof.
  intros H. unfold Cli.continue_fragment.
  now rewrite H, startswith_append, removeprefix_append.
Qed.

Lemma suspend_closed (next : json) (z : string) :
  Json.truthy next = true ->
  Cli.suspend_fragment next (z ++ "}" ++ LF ++ "]") = inr (z ++ "},").
Proof.
  intros H. unfold Cli.suspend_fragment.
  now rewrite H, endswith_append, removesuffix_append.
Qed.

Lemma fragment_only (page : response) (data : list json) :
  Notions.is_page page data false false ->
  Cli.json_fragment page = inr (Json.dumps 4 (JArr data)).
Proof.
  intros (Hok & result_json & previous & next & Hbody & Hdata & Hprev & Hnext & Hp & Hn).
  rewrite (json_fragment_ok _ _ _ _ _ Hok Hbody Hdata Hprev Hnext).
  unfold Cli.continue_fragment, Cli.suspend_fragment. now rewrite Hp, Hn.
Qed.

Lemma fragment_first (page : response) (front : list json) (members : list (string * json)) :
  Notions.is_page page (front ++ [JObj members]) false true ->
  Cli.json_fragment page
  = inr (("[" ++ LF) ++ "    " ++ Notions.items_text (front ++ [JObj members]) ++ ",").
Proof.
  intros (Hok & result_json & previous & next & Hbody & Hdata & Hprev & Hnext & Hp & Hn).
  rewrite (json_fragment_ok _ _ _ _ _ Hok Hbody Hdata Hprev Hnext).
  unfold Cli.continue_fragment. rewrite Hp.
  rewrite dumps_array by (destruct front; discriminate).
  destruct (items_text_end front members) as [y ->].
  replace ((("[" ++ LF) ++ "    " ++ (y ++ "}") ++ LF ++ "]"))
    with ((("[" ++ LF) ++ "    " ++ y) ++ "}" ++ LF ++ "]")
    by now rewrite !append_assoc.
  rewrite (suspend_closed _ _ Hn). now rewrite !append_assoc.
Qed.

Lemma fragment_middle (page : response) (front : list json) (members : list (string * json)) :
  Notions.is_page page (front ++ [JObj members]) true true ->
  Cli.json_fragment page
  = inr ("    " ++ Notions.items_text (front ++ [JObj members]) ++ ",").
Proof.
  intros (Hok & result_json & previous & next & Hbody & Hdata & Hprev & Hnext & Hp & Hn).
  rewrite (json_fragment_ok _ _ _ _ _ Hok Hbody Hdata Hprev Hnext).
  rewrite dumps_array by (destruct front; discriminate).
  rewrite (continue_opened _ _ Hp).
  destruct (items_text_end front members) as [y ->].
  replace ("    " ++ (y ++ "}") ++ LF ++ "]")
    with (("    " ++ y) ++ "}" ++ LF ++ "]")
    by now rewrite !append_assoc.
  rewrite (suspend_closed _ _ Hn). now rewrite !append_assoc.
Qed.

Lemma fragment_last (page : response) (data : list json) :
  Notions.is_page page data true false ->
  data <> [] ->
  Cli.json_fragment page = inr ("    " ++ Notions.items_text data ++ LF ++ "]").
Proof.
  intros (Hok & result_json & previous & next & Hbody & Hdata & Hprev & Hnext & Hp & Hn) Hne.
  rewrite (json_fragment_ok _ _ _ _ _ Hok Hbody Hdata Hprev Hnext).
  rewrite (dumps_array _ Hne), (continue_opened _ _ Hp).
  unfold Cli.suspend_fragment. now rewrite Hn.
Qed.

Lemma filter_json_cons (page : response) (rest : list response) (fragment : string)
      (st : run) :
  Cli.json_fragment page = inr fragment ->
  Cli.filter_json (page :: rest) st
  = Cli.filter_json rest (Cli.echo fragment (Cli.fetched st)).
Proof. intros H. cbn [Cli.filter_json]. now rewrite H. Qed.

Lemma run_continuation (pages : list response) (datas : list (list json)) :
  Notions.continuation pages datas ->
  List.concat datas <> []
  /\ forall st,
      Cli.filter_json pages st
      = {| stdout := stdout st ++ "    " ++ Notions.items_text (List.concat datas)
                     ++ LF ++ "]" ++ LF;
           requests := requests st + List.length pages;
           outcome := outcome st |}.
Proof.
  induction 1 as [page data Hpage Hne
                 | page data front members pages datas Hpage Hdata Hrest [IHne IH]].
  - cbn [List.concat]. rewrite app_nil_r. split; [assumption|]. intros st.
    cbn [Cli.filter_json]. rewrite (fragment_last _ _ Hpage Hne).
    unfold Cli.echo, Cli.fetched. cbn [stdout requests outcome List.length].
    f_equal; [now rewrite !append_assoc | lia].
  - subst data. split; [cbn [List.concat]; destruct front; discriminate|]. intros st.
    rewrite (filter_json_cons _ _ _ _ (fragment_middle _ _ _ Hpage)), IH.
    unfold Cli.echo, Cli.fetched. cbn [stdout requests outcome List.length List.concat].
    f_equal; [|lia].
    rewrite (items_text_app (front ++ [JObj members]) (List.concat datas))
      by (assumption || (destruct front; discriminate)).
    now rewrite !append_assoc.
Qed.

Lemma continuation_of_suffix (pages : list response) :
  forall datas k total,
    List.length pages = List.length datas ->
    total = k + List.length pages ->
    pages <> [] ->
    (forall i page data,
        nth_error pages i = Some page ->
        nth_error datas i = Some data ->
        Notions.is_page page data true (S (k + i) <? total)%nat) ->
    (forall i data,
        nth_error datas i = Some data ->
        data <> []
        /\ (S (k + i) < total ->
            exists front members, data = (front ++ [JObj members])%list)) ->
    Notions.continuation pages datas.
Proof.
  induction pages as [|page pages IH]; intros datas k total Hlen Htotal Hne Hpages Hdatas;
    [contradiction|].
  destruct datas as [|data datas]; [discriminate|].
  pose proof (Hpages 0 page data eq_refl eq_refl) as Hpage.
  destruct (Hdatas 0 data eq_refl) as [Hdata Hend].
  rewrite Nat.add_0_r in *. cbn [List.length] in *.
  destruct pages as [|page' pages].
  - destruct datas; [|discriminate].
    replace (S k <? total)%nat with false in Hpage by (symmetry; apply Nat.ltb_ge; simpl in *; lia).
    now constructor.
  - replace (S k <? total)%nat with true in Hpage
      by (symmetry; apply Nat.ltb_lt; simpl in *; lia).
    destruct Hend as (front & members & Hfront); [simpl in *; lia|].
    apply (Notions.continuation_more page data front members); [assumption | assumption |].
    apply (IH datas (S k) total); [simpl in *; lia | simpl in *; lia | discriminate | |].
    + intros i p d Hp Hd. rewrite Nat.add_succ_l, <- Nat.add_succ_r.
      now apply Hpages.
    + intros i d Hd. rewrite Nat.add_succ_l, <- Nat.add_succ_r.
      now apply Hdatas.
Qed.

Lemma forallb_concat {A : Type} (f : A -> bool) (ls : list (list A)) :
  forallb (forallb f) ls = true -> forallb f (List.concat ls) = true.
Proof.
  induction ls as [|l ls IH]; simpl; [reflexivity|].
  intros H. apply andb_true_iff in H as [Hl Hls].
  rewrite forallb_app, Hl. now apply IH.
Qed.

(** C1 (as amended): for pages of one result set, where page [i] has a
    previous page when [0 < i] and a next page when it is not the last,
    every page after the first has a non-empty data array and every
    page before the last has a data array that ends with an object: the
    JSON output of [filter] ends without an error after one request per
    page, the text written is that of [json.dumps(..., indent=4)] for
    the concatenation of the data arrays, followed by a newline, and
    [json.loads] reads that concatenation back from it. *)
Theorem C1_stitched_output :
  forall pages datas,
    pages <> [] ->
    Notions.page_sequence pages datas ->
    Notions.stitchable datas ->
    let out := Cli.filter_json pages Cli.start in
    outcome out = None
    /\ requests out = List.length pages
    /\ stdout out = Json.dumps 4 (JArr (List.concat datas)) ++ LF
    /\ (forallb (forallb Notions.distinct_keys) datas = true ->
        JsonRead.loads (stdout out) = Some (JArr (List.concat datas))).
Proof.
  intros pages datas Hne [Hlen Hpages] Hstitch out.
  assert (out = {| stdout := Json.dumps 4 (JArr (List.concat datas)) ++ LF;
                   requests := List.length pages;
                   outcome := None |}) as ->.
  { subst out. destruct pages as [|page pages]; [contradiction|].
    destruct datas as [|data datas]; [discriminate|].
    pose proof (Hpages 0 page data eq_refl eq_refl) as Hpage.
    destruct (Hstitch 0 data eq_refl) as [_ Hend].
    destruct pages as [|page' pages].
    - destruct datas; [|discriminate]. cbn in Hpage.
      cbn [Cli.filter_json List.concat]. rewrite app_nil_r.
      now rewrite (fragment_only _ _ Hpage).
    - destruct Hend as (front & members & ->); [simpl in *; lia|].
      change (1 <? List.length (page :: page' :: pages))%nat with true in Hpage.
      change (0 <? 0)%nat with false in Hpage.
      assert (Notions.continuation (page' :: pages) datas) as Hrest.
      { apply (continuation_of_suffix _ datas 1 (List.length (page :: page' :: pages)));
          [simpl in *; lia | reflexivity | discriminate | |].
        - intros i p d Hp Hd. apply (Hpages (S i) p d Hp Hd).
        - intros i d Hd. destruct (Hstitch (S i) d Hd) as [Hd1 Hd2].
          split; [apply Hd1; lia|]. intros Hlt. apply Hd2. simpl in *. lia. }
      destruct (run_continuation _ _ Hrest) as [Hcat Hrun].
      rewrite (filter_json_cons _ _ _ _ (fragment_first _ _ _ Hpage)), Hrun.
      unfold Cli.echo, Cli.fetched, Cli.start.
      cbn [stdout requests outcome List.length List.concat].
      f_equal.
      rewrite dumps_array by (destruct front; discriminate).
      rewrite (items_text_app (front ++ [JObj members]) (List.concat datas))
        by (assumption || (destruct front; discriminate)).
      rewrite !append_assoc. reflexivity. }
  cbn [stdout requests outcome]. repeat split.
  intros Hdistinct. apply loads_encode; [|reflexivity | exact eq_refl].
  cbn [Notions.distinct_keys]. now apply forallb_concat.
Qed.

Lemma C1_witness :
  JsonRead.loads (stdout (Cli.filter_json Notions.two_json_pages Cli.start))
  = Some (JArr [JObj [("a", JStr "1"); ("b", JStr "2")];
                JObj [("a", JStr "3"); ("b", JStr "4")]]).
Proof.
  apply (C1_stitched_output Notions.two_json_pages
           [[JObj [("a", JStr "1"); ("b", JStr "2")]];
            [JObj [("a", JStr "3"); ("b", JStr "4")]]]).
  - discriminate.
  - split; [reflexivity|]. intros i page data Hpage Hdata.
    destruct i as [|[|i]]; simpl in Hpage, Hdata.
    + injection Hpage as <-. injection Hdata as <-.
      split; [reflexivity|]. repeat eexists.
    + injection Hpage as <-. injection Hdata as <-.
      split; [reflexivity|]. repeat eexists.
    + destruct i; discriminate Hpage.
  - intros i data Hdata. destruct i as [|[|i]]; simpl in Hdata.
    + injection Hdata as <-. split; [discriminate|]. intros _.
      exists [], [("a", JStr "1"); ("b", JStr "2")]. reflexivity.
    + injection Hdata as <-. split; [discriminate|]. simpl. lia.
    + destruct i; discriminate Hdata.
  - reflexivity.
Defined.

Lemma C1_counterexample :
  Notions.page_sequence Notions.empty_second_page [[JObj [("a", JInt 1)]]; []]
  /\ outcome (Cli.filter_json Notions.empty_second_page Cli.start)
     = Some (PyException "Response JSON has invalid start character(s).")
  /\ JsonRead.loads (stdout (Cli.filter_json Notions.empty_second_page Cli.start))
     <> Some (JArr (List.concat [[JObj [("a", JInt 1)]]; []])).
Proof.
  split; [|split].
  - split; [reflexivity|]. intros i page data Hpage Hdata.
    destruct i as [|[|i]]; simpl in Hpage, Hdata.
    + injection Hpage as <-. injection Hdata as <-.
      split; [reflexivity|]. repeat eexists.
    + injection Hpage as <-. injection Hdata as <-.
      split; [reflexivity|]. repeat eexists.
    + destruct i; discriminate Hpage.
  - reflexivity.
  - intros H. vm_compute in H. discriminate H.
Qed.

(** ** [create_table] *)

Lemma table_cells_plain (row : list (string * json)) (keys : list string)
      (styles : option (list (string * list (string * string)))) :
  styles = None \/ styles = Some [] ->
  Forall (fun key => Json.dict_get key row <> None) keys ->
  exists cells,
    Commands.table_cells styles row keys = inr cells
    /\ Forall2 (fun key c => Json.dict_get key row = Some c) keys cells.
Proof.
  intros Hstyles. induction 1 as [|key keys Hkey Hkeys (cells & Hcells & Hall)].
  - exists []. split; [reflexivity | constructor].
  - destruct (Json.dict_get key row) as [v|] eqn:E; [|contradiction].
    exists (v :: cells). split; [|now constructor].
    cbn [Commands.table_cells]. unfold Commands.table_cell. rewrite E, Hcells.
    now destruct Hstyles as [-> | ->].
Qed.

Lemma showable_present (keys : list string) (row : list (string * json)) :
  showable keys row -> Forall (fun key => Json.dict_get key row <> None) keys.
Proof.
  apply Forall_impl. intros key (c & v & Hv & _). now rewrite Hv.
Qed.

Lemma add_row_shown (row : list (string * json)) (keys : list string) :
  showable keys row ->
  forall cells,
    Forall2 (fun key c => Json.dict_get key row = Some c) keys cells ->
    exists cells',
      Commands.add_row cells = inr cells' /\ Forall2 (has_cell row) keys cells'.
Proof.
  induction 1 as [|key keys (c & v & Hv & Hc) Hkeys IH]; intros cells Hcells.
  - inversion Hcells; subst. exists []. split; [reflexivity | constructor].
  - inversion Hcells as [|k v' ks cells0 Hv' Hcells0]; subst.
    destruct (IH _ Hcells0) as (cells' & Hrest & Hall).
    assert (v' = v) as -> by congruence.
    exists (c :: cells'). split.
    + cbn [Commands.add_row]. rewrite Hrest.
      destruct v; simpl in Hc; try discriminate; now injection Hc as <-.
    + constructor; [|assumption]. now exists v.
Qed.

Lemma add_row_strings (cells : list string) :
  Commands.add_row (List.map JStr cells) = inr (List.map JStr cells).
Proof.
  induction cells as [|c cells IH]; [reflexivity|].
  cbn [List.map Commands.add_row]. now rewrite IH.
Qed.

Lemma add_row_length (cells shown : list json) :
  Commands.add_row cells = inr shown -> List.length shown = List.length cells.
Proof.
  revert shown. induction cells as [|c cells IH]; intros shown; cbn [Commands.add_row].
  - now intros [= <-].
  - destruct (Commands.add_row cells) as [|rest];
      destruct c; try discriminate; intros [= <-]; simpl; f_equal; now apply IH.
Qed.

Lemma table_rows_plain (keys : list string)
      (styles : option (list (string * list (string * string))))
      (data : list (list (string * json))) :
  styles = None \/ styles = Some [] ->
  Forall (showable keys) data ->
  forall table,
  exists rows,
    Commands.table_rows styles keys data table
    = inr {| t_caption := t_caption table; t_columns := t_columns table;
             t_rows := (t_rows table ++ rows)%list |}
    /\ Forall2 (fun row cells => Forall2 (has_cell row) keys cells) data rows.
Proof.
  intros Hstyles. induction 1 as [|row data Hrow Hdata IH]; intros table.
  - exists []. split; [|constructor]. simpl. rewrite app_nil_r. now destruct table.
  - destruct (table_cells_plain row keys styles Hstyles (showable_present _ _ Hrow))
      as (cells & Hcells & Hall).
    destruct (add_row_shown row keys Hrow cells Hall) as (cells' & Hshown & Hall').
    cbn [Commands.table_rows]. rewrite Hcells, Hshown.
    destruct (IH {| t_caption := t_caption table; t_columns := t_columns table;
                    t_rows := (t_rows table ++ [cells'])%list |}) as (rows & Hrows & Hall'').
    exists (cells' :: rows). split; [|now constructor].
    rewrite Hrows. cbn [t_caption t_columns t_rows]. now rewrite <- app_assoc.
Qed.

(** X1: without styles ([None] or an empty dictionary), for data whose
    every row holds, under every key of the map, a string or [None],
    [create_table] returns a table without caption whose columns are
    the titles of the map and whose rows hold, for each row of the
    data and in the order of the map, the strings as they are and the
    empty string for [None]. *)
Theorem create_table_plain :
  forall data map styles,
    styles = None \/ styles = Some [] ->
    Forall (showable (List.map snd map)) data ->
    exists rows,
      Commands.create_table data map styles
      = inr {| t_caption := None; t_columns := List.map fst map; t_rows := rows |}
      /\ Forall2 (fun row cells => Forall2 (has_cell row) (List.map snd map) cells)
           data rows.
Proof.
  intros data map styles Hstyles Hdata. unfold Commands.create_table.
  destruct (table_rows_plain _ styles data Hstyles Hdata
              {| t_caption := None; t_columns := List.map fst map; t_rows := [] |})
    as (rows & Hrows & Hall).
  exists rows. split; [exact Hrows | exact Hall].
Qed.

Lemma create_table_plain_witness :
  exists rows,
    Commands.create_table [[("username", JStr "ada"); ("site", JNull)]]
      [("Username", "username"); ("Site", "site")] None
    = inr {| t_caption := None; t_columns := ["Username"; "Site"]; t_rows := rows |}
    /\ Forall2 (fun row cells => Forall2 (has_cell row) ["username"; "site"] cells)
         [[("username", JStr "ada"); ("site", JNull)]] rows.
Proof.
  apply (create_table_plain [[("username", JStr "ada"); ("site", JNull)]]
           [("Username", "username"); ("Site", "site")] None).
  - now left.
  - repeat constructor.
    + exists (JStr "ada"), (JStr "ada"). now split.
    + exists (JStr ""), JNull. now split.
Defined.

Lemma table_cells_length styles row keys cells :
  Commands.table_cells styles row keys = inr cells ->
  List.length cells = List.length keys.
Proof.
  revert cells. induction keys as [|key keys IH]; intros cells; simpl.
  - now intros [= <-].
  - destruct (Commands.table_cell styles row key); [discriminate|].
    destruct (Commands.table_cells styles row keys) as [|cs]; [discriminate|].
    intros [= <-]. simpl. f_equal. now apply IH.
Qed.

Lemma table_rows_shape styles keys data :
  forall table table',
    Commands.table_rows styles keys data table = inr table' ->
    t_columns table' = t_columns table
    /\ t_caption table' = t_caption table
    /\ exists rows,
        t_rows table' = (t_rows table ++ rows)%list
        /\ List.length rows = List.length data
        /\ Forall (fun cells => List.length cells = List.length keys) rows.
Proof.
  induction data as [|row data IH]; intros table table'; simpl.
  - intros [= <-]. repeat split. exists []. rewrite app_nil_r. repeat split. constructor.
  - destruct (Commands.table_cells styles row keys) as [|cells] eqn:E; [discriminate|].
    destruct (Commands.add_row cells) as [|shown] eqn:E'; [discriminate|].
    intros H. destruct (IH _ _ H) as (Hc & Hcap & rows & Hrows & Hlen & Hall).
    cbn [t_columns t_caption t_rows] in *. repeat split; try assumption.
    exists (shown :: rows). rewrite Hrows, <- app_assoc. repeat split.
    + simpl. now rewrite Hlen.
    + constructor; [|assumption].
      rewrite (add_row_length _ _ E'). now apply (table_cells_length styles row).
Qed.

Lemma create_table_shape :
  forall data map styles table,
    Commands.create_table data map styles = inr table ->
    t_columns table = List.map fst map
    /\ List.length (t_rows table) = List.length data
    /\ Forall (fun cells => List.length cells = List.length (t_columns table))
         (t_rows table).
Proof.
  intros data map styles table H. unfold Commands.create_table in H.
  destruct (table_rows_shape _ _ _ _ _ H) as (Hc & _ & rows & Hrows & Hlen & Hall).
  cbn [t_columns t_rows app] in *. rewrite Hc, Hrows. repeat split; try assumption.
  now rewrite !length_map in *.
Qed.

(** X2: a table that [create_table] returns is rectangular: its
    columns are the titles of the map, it has one row per row of the
    data, and every row has one cell per column. *)
Theorem create_table_rectangular :
  forall data map styles table,
    Commands.create_table data map styles = inr table ->
    t_columns table = List.map fst map
    /\ List.length (t_rows table) = List.length data
    /\ Forall (fun cells => List.length cells = List.length (t_columns table))
         (t_rows table).
Proof. exact create_table_shape. Qed.

Lemma create_table_rectangular_witness :
  List.length (t_rows {| t_caption := None; t_columns := ["Site"];
                         t_rows := [[JStr "lab"]; [JStr "hub"]] |}) = 2.
Proof.
  apply (create_table_rectangular [[("site", JStr "lab")]; [("site", JStr "hub")]]
           [("Site", "site")] None _ eq_refl).
Defined.

(** X3: without styles, when the rows before [row] hold a string or
    [None] under every key of the map, and [row] lacks [key] but has
    the keys of the map before it (with any values), [create_table]
    raises [KeyError] for [key] and returns no table, whatever rows
    follow. *)
Theorem create_table_missing_key :
  forall before row after map styles present key rest,
    styles = None \/ styles = Some [] ->
    Forall (showable (List.map snd map)) before ->
    List.map snd map = (present ++ key :: rest)%list ->
    Forall (fun k => Json.dict_get k row <> None) present ->
    Json.dict_get key row = None ->
    Commands.create_table (before ++ row :: after) map styles = inl (KeyError key).
Proof.
  intros before row after map styles present key rest Hstyles Hbefore Hkeys Hpresent Hkey.
  unfold Commands.create_table.
  generalize {| t_caption := None; t_columns := List.map fst map; t_rows := [] |}.
  induction Hbefore as [|r before Hr Hbefore IH]; intros table.
  - cbn [app Commands.table_rows].
    assert (Commands.table_cells styles row (List.map snd map) = inl (KeyError key)) as ->;
      [|reflexivity].
    rewrite Hkeys. clear Hkeys.
    induction Hpresent as [|k present Hk Hpresent IHp].
    + cbn [app Commands.table_cells]. unfold Commands.table_cell. now rewrite Hkey.
    + cbn [app Commands.table_cells]. unfold Commands.table_cell at 1.
      destruct (Json.dict_get k row) as [v|]; [|contradiction].
      rewrite IHp. now destruct Hstyles as [-> | ->].
  - cbn [app Commands.table_rows].
    destruct (table_cells_plain r _ styles Hstyles (showable_present _ _ Hr))
      as (cells & Hcells & Hall).
    destruct (add_row_shown r _ Hr cells Hall) as (cells' & Hshown & _).
    rewrite Hcells, Hshown. apply IH.
Qed.

Lemma create_table_missing_key_witness :
  Commands.create_table
    [[("username", JStr "ada"); ("site", JStr "lab")];
     [("username", JInt 7)]]
    [("Username", "username"); ("Site", "site")] None
  = inl (KeyError "site").
Proof.
  apply (create_table_missing_key [[("username", JStr "ada"); ("site", JStr "lab")]]
           [("username", JInt 7)] [] _ None ["username"] "site" []).
  - now left.
  - repeat constructor.
    + exists (JStr "ada"), (JStr "ada"). now split.
    + exists (JStr "lab"), (JStr "lab"). now split.
  - reflexivity.
  - repeat constructor; discriminate.
  - reflexivity.
Defined.

Lemma add_row_refuses (cells : list json) :
  Exists (fun c => shown c = None) cells ->
  Commands.add_row cells = inl NotRenderableError.
Proof.
  induction cells as [|c cells IH]; intros H; [inversion H|].
  cbn [Commands.add_row].
  destruct c; try reflexivity;
    (inversion H as [? ? Hc | ? ? Hrest]; subst; [discriminate Hc|]);
    now rewrite (IH Hrest).
Qed.

Lemma cells_refused (row : list (string * json)) (keys : list string)
      (cells : list json) (key : string) (value : json) :
  Forall2 (fun k c => Json.dict_get k row = Some c) keys cells ->
  In key keys ->
  Json.dict_get key row = Some value ->
  shown value = None ->
  Exists (fun c => shown c = None) cells.
Proof.
  intros Hall Hin Hvalue Hshown.
  induction Hall as [|k c keys cells Hk Hall IH]; [contradiction|].
  destruct Hin as [-> | Hin].
  - left. congruence.
  - right. now apply IH.
Qed.

(** X26: without styles, when the rows before [row] hold a string or
    [None] under every key of the map, and [row] has every key of the
    map but holds under one of them a value that is neither a string
    nor [None] (a number, a boolean, a list or a dictionary),
    [create_table] raises rich's [NotRenderableError] and returns no
    table, whatever rows follow. *)
Theorem create_table_not_renderable :
  forall before row after map styles key value,
    styles = None \/ styles = Some [] ->
    Forall (showable (List.map snd map)) before ->
    Forall (fun k => Json.dict_get k row <> None) (List.map snd map) ->
    In key (List.map snd map) ->
    Json.dict_get key row = Some value ->
    shown value = None ->
    Commands.create_table (before ++ row :: after) map styles
    = inl NotRenderableError.
Proof.
  intros before row after map styles key value Hstyles Hbefore Hrow Hin Hvalue Hshown.
  unfold Commands.create_table.
  generalize {| t_caption := None; t_columns := List.map fst map; t_rows := [] |}.
  induction Hbefore as [|r before Hr Hbefore IH]; intros table.
  - cbn [app Commands.table_rows].
    destruct (table_cells_plain row _ styles Hstyles Hrow) as (cells & Hcells & Hall).
    rewrite Hcells.
    now rewrite (add_row_refuses cells (cells_refused _ _ _ _ _ Hall Hin Hvalue Hshown)).
  - cbn [app Commands.table_rows].
    destruct (table_cells_plain r _ styles Hstyles (showable_present _ _ Hr))
      as (cells & Hcells & Hall).
    destruct (add_row_shown r _ Hr cells Hall) as (cells' & Hshown' & _).
    rewrite Hcells, Hshown'. apply IH.
Qed.

Lemma create_table_not_renderable_witness :
  Commands.create_table
    [[("username", JStr "ada"); ("id", JNull)];
     [("username", JStr "bob"); ("id", JInt 7)]]
    [("Username", "username"); ("Id", "id")] None
  = inl NotRenderableError.
Proof.
  apply (create_table_not_renderable [[("username", JStr "ada"); ("id", JNull)]]
           [("username", JStr "bob"); ("id", JInt 7)] [] _ None "id" (JInt 7)).
  - now left.
  - repeat constructor.
    + exists (JStr "ada"), (JStr "ada"). now split.
    + exists (JStr ""), JNull. now split.
  - repeat constructor; discriminate.
  - right. now left.
  - reflexivity.
  - reflexivity.
Defined.

(** ** [projects] *)

Lemma styled_action (action : string) :
  Commands.styled [("view", "bold cyan"); ("add", "bold green");
                   ("change", "bold yellow"); ("delete", "bold red")] (JStr action)
  = inr (JStr (action_markup action)).
Proof.
  unfold Commands.styled, action_markup. cbn [Json.dict_get].
  rewrite (String.eqb_sym "view"), (String.eqb_sym "add"),
    (String.eqb_sym "change"), (String.eqb_sym "delete").
  destruct (String.eqb_spec action "view") as [->|]; [reflexivity|].
  destruct (String.eqb_spec action "add") as [->|]; [reflexivity|].
  destruct (String.eqb_spec action "change") as [->|]; [reflexivity|].
  destruct (String.eqb_spec action "delete") as [->|]; reflexivity.
Qed.

Lemma projects_rows (data : list (list (string * json)))
      (listed : list (string * string * string)) :
  Forall2 is_project data listed ->
  forall table,
    Commands.table_rows (Some Commands.projects_styles) ["project"; "action"; "scope"]
      data table
    = inr {| t_caption := t_caption table;
             t_columns := t_columns table;
             t_rows := (t_rows table
                        ++ List.map (fun p => [JStr (fst (fst p));
                                               JStr (action_markup (snd (fst p)));
                                               JStr (snd p)]) listed)%list |}.
Proof.
  induction 1 as [|row p data listed (Hp & Ha & Hs) Hall IH]; intros table.
  - simpl. rewrite app_nil_r. now destruct table.
  - cbn [Commands.table_rows Commands.table_cells]. unfold Commands.table_cell.
    rewrite Hp, Ha, Hs.
    assert (Json.dict_get "project" Commands.projects_styles = None) as -> by reflexivity.
    assert (Json.dict_get "scope" Commands.projects_styles = None) as -> by reflexivity.
    assert (Json.dict_get "action" Commands.projects_styles
            = Some [("view", "bold cyan"); ("add", "bold green");
                    ("change", "bold yellow"); ("delete", "bold red")]) as ->
        by reflexivity.
    cbv delta [Commands.projects_styles] iota beta.
    rewrite styled_action.
    change [JStr (fst (fst p)); JStr (action_markup (snd (fst p))); JStr (snd p)]
      with (List.map JStr [fst (fst p); action_markup (snd (fst p)); snd p]).
    rewrite add_row_strings, IH. cbn [t_caption t_columns t_rows List.map].
    now rewrite <- app_assoc.
Qed.

(** X4: for projects that each hold a name, an action and a scope as
    strings, [projects] prints the table of the columns Project, Action
    and Scope with one row per project, the action wrapped in its
    colour when it is view, add, change or delete and left as it is
    otherwise. *)
Theorem projects_table :
  forall data listed,
    Forall2 is_project data listed ->
    Commands.projects (Returned data)
    = inr {| t_caption := None;
             t_columns := ["Project"; "Action"; "Scope"];
             t_rows := List.map (fun p => [JStr (fst (fst p));
                                           JStr (action_markup (snd (fst p)));
                                           JStr (snd p)]) listed |}.
Proof.
  intros data listed Hall. unfold Commands.projects, Commands.create_table.
  apply (projects_rows data listed Hall).
Qed.

Lemma projects_table_witness :
  Commands.projects
    (Returned [[("project", JStr "mscape"); ("action", JStr "view");
                ("scope", JStr "base")]])
  = inr {| t_caption := None;
           t_columns := ["Project"; "Action"; "Scope"];
           t_rows := [[JStr "mscape"; JStr "[bold cyan]view[/]"; JStr "base"]] |}.
Proof.
  apply (projects_table _ [("mscape", "view", "base")]).
  repeat constructor.
Defined.

(** ** [get] *)

(** X5: the text [get] writes for a record is read back by
    [json.loads] as that record. *)
Theorem get_output_parses :
  forall record,
    Notions.distinct_keys record = true ->
    exists text,
      Commands.get (Returned record) = inr text
      /\ JsonRead.loads text = Some record.
Proof.
  intros record Hdistinct. exists (Json.dumps 4 record ++ LF). split; [reflexivity|].
  apply loads_encode; [assumption | reflexivity | exact eq_refl].
Qed.

Lemma get_output_parses_witness :
  exists text,
    Commands.get (Returned (JObj [("cid", JStr "C-1"); ("n", JInt 3)])) = inr text
    /\ JsonRead.loads text = Some (JObj [("cid", JStr "C-1"); ("n", JInt 3)]).
Proof. apply get_output_parses. reflexivity. Defined.

(** ** More on [cli_error] *)

(** X7: for a body that is an object whose [messages] is an object,
    the message [cli_error] reports is never empty (it is a true
    value). *)
Theorem cli_error_message_not_empty :
  forall response response_json messages,
    body response = Some response_json ->
    Json.getitem response_json "messages" = inr (JObj messages) ->
    exists message,
      Cli.cli_error response = ClickException message
      /\ Json.truthy message = true.
Proof.
  intros response response_json messages Hbody Hmessages.
  unfold Cli.cli_error. rewrite Hbody, Hmessages.
  assert (Json.truthy (JStr (Json.dumps 4 (JObj messages))) = true) as Hdump
      by now destruct messages.
  destruct (Json.dict_get "detail" messages) as [detail|].
  - destruct (Json.truthy detail) eqn:E; eexists; split; try reflexivity; assumption.
  - eexists; split; [reflexivity | assumption].
Qed.

Lemma cli_error_message_not_empty_witness :
  exists message,
    Cli.cli_error Notions.empty_detail = ClickException message
    /\ Json.truthy message = true.
Proof.
  apply (cli_error_message_not_empty Notions.empty_detail
           (JObj [("messages", JObj [("detail", JStr "")])]) [("detail", JStr "")]);
    reflexivity.
Defined.

(** ** More on [add_fields] *)

Lemma add_fields_frame_list (data : list (string * field_info)) :
  Forall (fun c => forall table prefix name,
              Cli.add_field table prefix name (snd c)
              = ((table ++ fst (Cli.add_field [] prefix name (snd c)))%list,
                 snd (Cli.add_field [] prefix name (snd c)))) data ->
  forall table prefix,
    Cli.add_fields table data prefix
    = ((table ++ fst (Cli.add_fields [] data prefix))%list,
       snd (Cli.add_fields [] data prefix)).
Proof.
  induction 1 as [|[f i] rest Hi Hrest IH]; intros table prefix.
  - simpl. now rewrite app_nil_r.
  - cbn [Cli.add_fields snd] in *. rewrite (Hi table prefix f).
    destruct (Cli.add_field [] prefix f i) as [added [e|]]; cbn [fst snd]; [reflexivity|].
    rewrite (IH (table ++ added)%list), (IH added). cbn [fst snd].
    now rewrite app_assoc.
Qed.

Lemma add_field_frame (info : field_info) :
  forall table prefix name,
    Cli.add_field table prefix name info
    = ((table ++ fst (Cli.add_field [] prefix name info))%list,
       snd (Cli.add_field [] prefix name info)).
Proof.
  induction info as [required type description values fields IH]
    using field_info_induction.
  intros table prefix name. rewrite !add_field_equation. cbv zeta.
  destruct (type =? "relation"); [|reflexivity].
  destruct fields as [children|]; [|reflexivity].
  rewrite (add_fields_frame_list children IH (table ++ _)%list).
  rewrite (add_fields_frame_list children IH ([] ++ _)%list).
  cbn [fst snd app]. now rewrite <- app_assoc.
Qed.

(** X8: [add_fields] only appends: the table it leaves, also when it
    raises, is the table it was given followed by the rows it adds to
    an empty table, and the exception does not depend on the table. *)
Theorem add_fields_appends :
  forall table data prefix,
    Cli.add_fields table data prefix
    = ((table ++ fst (Cli.add_fields [] data prefix))%list,
       snd (Cli.add_fields [] data prefix)).
Proof.
  intros table data prefix. apply add_fields_frame_list.
  apply Forall_forall. intros c _. apply add_field_frame.
Qed.

Lemma add_fields_app (a b : list (string * field_info)) :
  forall table prefix table',
    Cli.add_fields table a prefix = (table', None) ->
    Cli.add_fields table (a ++ b) prefix = Cli.add_fields table' b prefix.
Proof.
  induction a as [|[f i] a IH]; intros table prefix table'; simpl.
  - now intros [= <-].
  - destruct (Cli.add_field table prefix f i) as [t [e|]]; [discriminate|]. apply IH.
Qed.

(** X9: a top-level field of type [relation] that has no [fields]
    makes [add_fields] raise [KeyError] for [fields] after the rows of
    the fields before it and its own row were added; the fields after
    it are not visited. *)
Theorem add_fields_missing_children :
  forall table before name required description values after,
    Notions.named before = true ->
    forallb (fun c => Notions.complete (snd c)) before = true ->
    Cli.add_fields table
      (before ++ (name, FieldInfo required "relation" description values None) :: after)
      None
    = ((table ++ List.map Notions.node_row (Notions.tree_nodes before)
        ++ [Cli.field_row None name
              (FieldInfo required "relation" description values None)])%list,
       Some (KeyError "fields")).
Proof.
  intros table before name required description values after Hnamed Hcomplete.
  rewrite (add_fields_app before _ table None _
             (add_fields_nodes before table Hnamed Hcomplete)).
  cbn [Cli.add_fields]. rewrite add_field_equation. cbv zeta.
  cbn [String.eqb Ascii.eqb Bool.eqb]. now rewrite <- app_assoc.
Qed.

Lemma add_fields_missing_children_witness :
  Cli.add_fields []
    ([("sample_id", FieldInfo true "text" None None None)]
     ++ ("collection", FieldInfo false "relation" None None None)
     :: [("run", FieldInfo true "text" None None None)]) None
  = (([] ++ List.map Notions.node_row
              (Notions.tree_nodes [("sample_id", FieldInfo true "text" None None None)])
      ++ [Cli.field_row None "collection" (FieldInfo false "relation" None None None)])%list,
     Some (KeyError "fields")).
Proof. apply add_fields_missing_children; reflexivity. Defined.

Lemma add_field_empty_prefix (table : list row) (name : string) (info : field_info) :
  Cli.add_field table (Some "") name info = Cli.add_field table None name info.
Proof. destruct info. now rewrite !add_field_equation. Qed.

(** X10: the children of a top-level relation whose name is the
    empty string are listed as top-level fields: after the row of the
    relation, [add_fields] goes on as a call on the children with no
    prefix. *)
Theorem add_fields_empty_name :
  forall table required description values children,
    Cli.add_fields table
      [("", FieldInfo required "relation" description values (Some children))] None
    = Cli.add_fields
        (table ++ [Cli.field_row None ""
                     (FieldInfo required "relation" description values (Some children))])
        children None.
Proof.
  intros table required description values children.
  cbn [Cli.add_fields]. rewrite add_field_equation. cbv zeta.
  cbn [String.eqb Ascii.eqb Bool.eqb Cli.child_prefix Cli.truthy_prefix].
  generalize (table ++ [Cli.field_row None ""
                          (FieldInfo required "relation" description values
                             (Some children))])%list.
  intros t.
  assert (forall data t0, Cli.add_fields t0 data (Some "") = Cli.add_fields t0 data None)
    as Hsame.
  { induction data as [|[f i] data IHd]; intros t0; [reflexivity|].
    cbn [Cli.add_fields]. rewrite add_field_empty_prefix.
    destruct (Cli.add_field t0 None f i) as [t1 [e|]]; [reflexivity | apply IHd]. }
  rewrite Hsame. now destruct (Cli.add_fields t children None) as [t' [e|]].
Qed.

(** ** [fields] *)

(** X11: for a reply that holds a version and a tree of fields in
    which every relation has its children and every top-level field a
    name, [fields] prints a table with the caption naming the project
    and the version, the five columns, and one row per node of the
    tree in depth-first order. *)
Theorem fields_table :
  forall project version tree,
    Notions.named tree = true ->
    forallb (fun c => Notions.complete (snd c)) tree = true ->
    Commands.fields project
      (Returned {| Commands.reply_version := Some version;
                   Commands.reply_fields := Some tree |})
    = inr {| t_caption :=
               Some ("Fields specification for the '" ++ project
                     ++ "' project. Version: " ++ PyRepr.str version);
             t_columns := ["Field"; "Status"; "Type"; "Description"; "Values"];
             t_rows := List.map (fun n => Commands.cells_of_row (Notions.node_row n))
                         (Notions.tree_nodes tree) |}.
Proof.
  intros project version tree Hnamed Hcomplete. unfold Commands.fields.
  cbn [Commands.reply_version Commands.reply_fields].
  rewrite (add_fields_nodes tree [] Hnamed Hcomplete). cbn [app].
  now rewrite map_map.
Qed.

Lemma fields_table_witness :
  exists table,
    Commands.fields "mscape"
      (Returned {| Commands.reply_version := Some (JStr "0.1.0");
                   Commands.reply_fields := Some Notions.example_tree |})
    = inr table
    /\ List.length (t_rows table) = 3.
Proof.
  eexists. split; [apply fields_table; reflexivity | reflexivity].
Defined.

(** ** The loop of the JSON output *)

Lemma filter_json_good (good : list response) (fragments : list string) :
  Forall2 (fun page fragment => Cli.json_fragment page = inr fragment) good fragments ->
  forall rest st,
    Cli.filter_json (good ++ rest) st
    = Cli.filter_json rest
        {| stdout := stdout st
                     ++ String.concat "" (List.map (fun f => f ++ LF) fragments);
           requests := requests st + List.length good;
           outcome := outcome st |}.
Proof.
  induction 1 as [|page fragment good fragments Hpage Hgood IH]; intros rest st.
  - simpl. rewrite append_nil_r, Nat.add_0_r. now destruct st.
  - cbn [app]. rewrite (filter_json_cons _ _ _ _ Hpage), IH.
    unfold Cli.echo, Cli.fetched. cbn [stdout requests outcome List.map List.length].
    rewrite concat_cons, !append_assoc.
    now replace (S (requests st) + List.length good)
      with (requests st + S (List.length good)) by lia.
Qed.

(** X12: the loop of the JSON output writes the fragments of the
    pages in order, each followed by a newline, with one request per
    page; at the first page that raises, the fragments of the pages
    before it stay written, the exception ends the command after that
    page's request, and the pages after it are not requested. *)
Theorem filter_json_first_failure :
  forall good fragments,
    Forall2 (fun page fragment => Cli.json_fragment page = inr fragment) good fragments ->
    (forall st,
        Cli.filter_json good st
        = {| stdout := stdout st
                       ++ String.concat "" (List.map (fun f => f ++ LF) fragments);
             requests := requests st + List.length good;
             outcome := outcome st |})
    /\ (forall bad e rest st,
           Cli.json_fragment bad = inl e ->
           Cli.filter_json (good ++ bad :: rest) st
           = {| stdout := stdout st
                          ++ String.concat "" (List.map (fun f => f ++ LF) fragments);
                requests := requests st + List.length good + 1;
                outcome := Some e |}).
Proof.
  intros good fragments Hgood. split.
  - intros st. rewrite <- (app_nil_r good) at 1. now rewrite (filter_json_good _ _ Hgood).
  - intros bad e rest st Hbad. rewrite (filter_json_good _ _ Hgood).
    cbn [Cli.filter_json]. rewrite Hbad. unfold Cli.raise, Cli.fetched.
    cbn [stdout requests outcome].
    now replace (S (requests st + List.length good))
      with (requests st + List.length good + 1) by lia.
Qed.

Lemma filter_json_first_failure_witness :
  Cli.filter_json
    ({| ok := true; text := "";
        body := Some (JObj [("data", JInt 7); ("previous", JNull); ("next", JNull)]) |}
     :: {| ok := true; text := "<html>"; body := None |} :: []) Cli.start
  = {| stdout := "7" ++ LF; requests := 2;
       outcome := Some (ClickException (JStr "<html>")) |}.
Proof.
  apply (proj2 (filter_json_first_failure
                  [ {| ok := true; text := "";
                       body := Some (JObj [("data", JInt 7); ("previous", JNull);
                                           ("next", JNull)]) |} ]
                  ["7"] ltac:(repeat constructor))
           {| ok := true; text := "<html>"; body := None |}
           (ClickException (JStr "<html>")) [] Cli.start).
  reflexivity.
Defined.

(** ** When the checks of the surgery pass *)

Lemma last_char_append (a b : string) : b <> "" -> last_char (a ++ b) = last_char b.
Proof.
  intros Hb. induction a as [|c a IH]; [reflexivity|].
  cbn [append last_char]. rewrite IH.
  destruct (a ++ b) eqn:E; [|reflexivity].
  destruct a; [simpl in E; contradiction | discriminate].
Qed.

Lemma append_inv_r (a b c : string) : a ++ c = b ++ c -> a = b.
Proof.
  revert b. induction a as [|x a IH]; intros b H.
  - destruct b as [|y b]; [reflexivity|].
    apply (f_equal String.length) in H. simpl in H. rewrite ?length_append in H. lia.
  - destruct b as [|y b].
    + apply (f_equal String.length) in H. simpl in H. rewrite ?length_append in H. lia.
    + simpl in H. injection H as -> H. f_equal. now apply IH.
Qed.

Lemma number_text_last (lit : string) :
  Notions.number_text lit = true ->
  forall c, last_char lit = Some c -> is_number_char c = true.
Proof.
  induction lit as [|a lit IH]; simpl; [discriminate|].
  intros H c. apply andb_true_iff in H as [Ha Hlit].
  destruct lit; [now intros [= <-] | now apply IH].
Qed.

Lemma encode_string_last (s : string) : last_char (Json.encode_string s) = Some ch_quote.
Proof.
  unfold Json.encode_string. rewrite <- append_assoc.
  now rewrite last_char_append.
Qed.

Lemma encode_last_brace (indent level : nat) (v : json) :
  last_char (Json.encode indent level v) = Some "}"%char ->
  exists members, v = JObj members.
Proof.
  destruct v as [| [] | z | s | xs | kvs]; try discriminate.
  - intros H. destruct (of_int_number_text z) as [Hnum _].
    now pose proof (number_text_last _ Hnum _ H).
  - cbn [Json.encode]. rewrite encode_string_last. discriminate.
  - destruct xs; [discriminate|]. cbn [Json.encode].
    rewrite <- !append_assoc. rewrite last_char_append; discriminate.
  - intros _. now exists kvs.
Qed.

Lemma encode_not_empty (indent level : nat) (v : json) : Json.encode indent level v <> "".
Proof.
  destruct v as [| [] | z | s | xs | kvs]; try discriminate.
  - apply of_int_number_text.
  - destruct xs; discriminate.
  - destruct kvs; discriminate.
Qed.

Lemma split_last {A : Type} (l : list A) :
  l <> [] -> exists front x, l = (front ++ [x])%list.
Proof.
  intros H. destruct (exists_last H) as (front & x & ->). now exists front, x.
Qed.

Lemma items_text_last (front : list json) (x : json) :
  last_char (Notions.items_text (front ++ [x])) = last_char (Json.encode 4 1 x).
Proof.
  destruct front as [|y front]; [reflexivity|].
  rewrite items_text_app by discriminate.
  rewrite <- !append_assoc. apply last_char_append, encode_not_empty.
Qed.

Lemma opening_text_iff :
  forall data,
    PyStr.startswith ("[" ++ LF) (Json.dumps 4 data) = true
    <-> exists x xs, data = JArr (x :: xs).
Proof.
  intros data. split.
  - destruct data as [| [] | z | s | xs | kvs]; try discriminate.
    + intros H. exfalso. destruct (of_int_number_text z) as [Hnum Hne].
      unfold Json.dumps, Json.encode in H.
      destruct (PyStr.of_int z) as [|c lit]; [contradiction|].
      simpl in Hnum. apply andb_true_iff in Hnum as [Hc _].
      apply startswith_inv in H as [r Hr]. injection Hr as Hhead _.
      rewrite Hhead in Hc. discriminate Hc.
    + destruct xs as [|x xs]; [discriminate|]. intros _. now exists x, xs.
    + destruct kvs; discriminate.
  - intros (x & xs & ->). rewrite dumps_array by discriminate. apply startswith_append.
Qed.

(** X13: the text rendered for [data] starts with an opening bracket
    and a newline exactly when [data] is a non-empty array. *)
Theorem start_check_iff :
  forall data,
    PyStr.startswith ("[" ++ LF) (Json.dumps 4 data) = true
    <-> exists x xs, data = JArr (x :: xs).
Proof. exact opening_text_iff. Qed.

Lemma closing_text_iff :
  forall data,
    PyStr.endswith ("}" ++ LF ++ "]") (Json.dumps 4 data) = true
    <-> exists front members, data = JArr (front ++ [JObj members]).
Proof.
  intros data. split.
  - intros H. apply endswith_inv in H as [x Hx].
    assert (last_char (Json.dumps 4 data) = Some "]"%char) as Hlast
        by (rewrite Hx; now rewrite last_char_append).
    destruct data as [| [] | z | s | xs | kvs]; try discriminate.
    + exfalso. destruct (of_int_number_text z) as [Hnum _].
      now pose proof (number_text_last _ Hnum _ Hlast).
    + exfalso. unfold Json.dumps in Hlast. cbn [Json.encode] in Hlast.
      rewrite encode_string_last in Hlast. discriminate.
    + destruct xs as [|y ys].
      { exfalso. apply (f_equal String.length) in Hx. rewrite length_append in Hx.
        simpl in Hx. lia. }
      destruct (split_last (y :: ys)) as (front & last & Hsplit); [discriminate|].
      rewrite Hsplit in *. rewrite dumps_array in Hx by (destruct front; discriminate).
      replace (("[" ++ LF) ++ "    " ++ Notions.items_text (front ++ [last]) ++ LF ++ "]")
        with ((("[" ++ LF) ++ "    " ++ Notions.items_text (front ++ [last])) ++ LF ++ "]")
        in Hx by now rewrite !append_assoc.
      replace (x ++ "}" ++ LF ++ "]") with ((x ++ "}") ++ LF ++ "]") in Hx
        by now rewrite !append_assoc.
      apply append_inv_r in Hx.
      assert (last_char (Notions.items_text (front ++ [last])) = Some "}"%char) as Hbrace.
      { apply (f_equal last_char) in Hx.
        rewrite (last_char_append x "}") in Hx by discriminate.
        change (last_char "}") with (Some "}"%char) in Hx.
        rewrite <- Hx. symmetry.
        rewrite !append_assoc.
        rewrite (last_char_append "[" _) by discriminate.
        rewrite (last_char_append LF _) by discriminate.
        apply last_char_append.
        unfold Notions.items_text. destruct front; simpl; intros E.
        - now apply (encode_not_empty 4 1 last).
        - destruct (encode_not_empty 4 1 j).
          destruct (Json.encode 4 1 j); [reflexivity|].
          destruct (List.map _ (front ++ [last])); discriminate. }
      rewrite items_text_last in Hbrace.
      destruct (encode_last_brace _ _ _ Hbrace) as [members ->].
      now exists front, members.
    + exfalso. unfold Json.dumps in Hlast. destruct kvs; [discriminate|].
      cbn [Json.encode] in Hlast. rewrite <- !append_assoc in Hlast.
      rewrite last_char_append in Hlast; discriminate.
  - intros (front & members & ->).
    rewrite dumps_array by (destruct front; discriminate).
    destruct (items_text_end front members) as [y ->].
    replace (("[" ++ LF) ++ "    " ++ (y ++ "}") ++ LF ++ "]")
      with ((("[" ++ LF) ++ "    " ++ y) ++ "}" ++ LF ++ "]")
      by now rewrite !append_assoc.
    apply endswith_append.
Qed.

(** X14: the text rendered for [data] ends with a closing brace, a
    newline and a closing bracket exactly when [data] is an array whose
    last element is an object. *)
Theorem end_check_iff :
  forall data,
    PyStr.endswith ("}" ++ LF ++ "]") (Json.dumps 4 data) = true
    <-> exists front members, data = JArr (front ++ [JObj members]).
Proof. exact closing_text_iff. Qed.

(** X15: an ok page whose body holds [data], [previous] and [next]
    gives a fragment exactly when [data] is a non-empty array if the
    page has a previous page, and [data] is an array that ends with an
    object if the page has a next page. *)
Theorem json_fragment_succeeds_iff :
  forall result result_json data previous next,
    ok result = true ->
    body result = Some result_json ->
    Json.getitem result_json "data" = inr data ->
    Json.getitem result_json "previous" = inr previous ->
    Json.getitem result_json "next" = inr next ->
    (exists fragment, Cli.json_fragment result = inr fragment)
    <-> ((Json.truthy previous = true -> exists x xs, data = JArr (x :: xs))
         /\ (Json.truthy next = true ->
             exists front members, data = JArr (front ++ [JObj members]))).
Proof.
  intros result result_json data previous next Hok Hbody Hdata Hprev Hnext.
  rewrite (json_fragment_ok _ _ _ _ _ Hok Hbody Hdata Hprev Hnext).
  unfold Cli.continue_fragment, Cli.suspend_fragment.
  destruct (Json.truthy previous) eqn:Hp; destruct (Json.truthy next) eqn:Hn.
  - destruct (PyStr.startswith ("[" ++ LF) (Json.dumps 4 data)) eqn:Hstart; cbn [negb].
    + pose proof Hstart as Hopen. apply startswith_inv in Hopen as [r Hr].
      rewrite Hr, removeprefix_append. rewrite <- (endswith_after_open r), <- Hr.
      destruct (PyStr.endswith ("}" ++ LF ++ "]") (Json.dumps 4 data)) eqn:Hend; cbn [negb].
      * split; [intros _ | intros _; eexists; reflexivity].
        split; intros _; [now apply opening_text_iff | now apply closing_text_iff].
      * split; [intros [f Hf]; discriminate Hf|]. intros [_ H].
        apply closing_text_iff in H; [congruence | reflexivity].
    + split; [intros [f Hf]; discriminate Hf|]. intros [H _].
      apply opening_text_iff in H; [congruence | reflexivity].
  - destruct (PyStr.startswith ("[" ++ LF) (Json.dumps 4 data)) eqn:Hstart; cbn [negb].
    + split; [intros _ | intros _; eexists; reflexivity].
      split; [intros _; now apply opening_text_iff | discriminate].
    + split; [intros [f Hf]; discriminate Hf|]. intros [H _].
      apply opening_text_iff in H; [congruence | reflexivity].
  - destruct (PyStr.endswith ("}" ++ LF ++ "]") (Json.dumps 4 data)) eqn:Hend; cbn [negb].
    + split; [intros _ | intros _; eexists; reflexivity].
      split; [discriminate | intros _; now apply closing_text_iff].
    + split; [intros [f Hf]; discriminate Hf|]. intros [_ H].
      apply closing_text_iff in H; [congruence | reflexivity].
  - split; [intros _ | intros _; eexists; reflexivity]. split; discriminate.
Qed.

Lemma json_fragment_succeeds_iff_witness :
  exists fragment,
    Cli.json_fragment
      {| ok := true; text := "";
         body := Some (JObj [("data", JArr [JInt 1; JObj [("a", JStr "1")]]);
                             ("previous", JStr "page=1");
                             ("next", JStr "page=3")]) |} = inr fragment.
Proof.
  apply (proj2 (json_fragment_succeeds_iff
                  {| ok := true; text := "";
                     body := Some (JObj [("data", JArr [JInt 1; JObj [("a", JStr "1")]]);
                                         ("previous", JStr "page=1");
                                         ("next", JStr "page=3")]) |}
                  (JObj [("data", JArr [JInt 1; JObj [("a", JStr "1")]]);
                         ("previous", JStr "page=1"); ("next", JStr "page=3")])
                  (JArr [JInt 1; JObj [("a", JStr "1")]])
                  (JStr "page=1") (JStr "page=3")
                  eq_refl eq_refl eq_refl eq_refl eq_refl)).
  split; intros _.
  - now exists (JInt 1), [JObj [("a", JStr "1")]].
  - now exists [JInt 1], [("a", JStr "1")].
Defined.

(** ** Output cut short *)

Lemma parse_items_dangling (xs : list json) :
  Forall parses xs ->
  xs <> [] ->
  forall fuel,
    List.length (Notions.intercalate [TComma] (List.map Notions.toks xs)) < fuel ->
    parse_items fuel (Notions.intercalate [TComma] (List.map Notions.toks xs) ++ [TComma])
    = None.
Proof.
  induction 1 as [|x xs Hx Hxs IH]; [intros H; exfalso; now apply H|]. intros _ fuel Hfuel.
  destruct fuel as [|fuel]; [lia|].
  destruct xs as [|y xs].
  - cbn [List.map Notions.intercalate] in *. cbn [parse_items].
    rewrite Hx by lia. destruct fuel as [|[|fuel]]; reflexivity.
  - change (Notions.intercalate [TComma] (List.map Notions.toks (x :: y :: xs)))
      with (Notions.toks x ++ [TComma]
            ++ Notions.intercalate [TComma] (List.map Notions.toks (y :: xs)))%list in *.
    rewrite !length_app in Hfuel. cbn [List.length] in Hfuel.
    rewrite <- !app_assoc. cbn [parse_items].
    rewrite Hx by lia. cbn [app]. rewrite IH by (discriminate || lia). reflexivity.
Qed.

Lemma tokens_cut_short (xs : list json) :
  xs <> [] ->
  tokens ((("[" ++ LF) ++ "    " ++ Notions.items_text xs ++ ",") ++ LF)
  = Some (TLBrack :: Notions.intercalate [TComma] (List.map Notions.toks xs) ++ [TComma])%list.
Proof.
  intros Hne. unfold tokens.
  assert (Notions.reads ((("[" ++ LF) ++ "    " ++ Notions.items_text xs ++ ",") ++ LF)
            ([TLBrack] ++ [] ++ []
             ++ Notions.intercalate [TComma] (List.map Notions.toks xs) ++ [TComma])) as H.
  { rewrite !append_assoc.
    apply (reads_after "[" _ [TLBrack]); [now apply freely_step|].
    apply (reads_after LF _ []); [intros s; reflexivity|].
    apply (reads_after "    " _ []); [intros s; reflexivity|].
    apply reads_append; [| |discriminate|reflexivity].
    - apply (reads_joined (Json.encode 4 1) Notions.toks 4 1 xs); [|assumption].
      apply Forall_forall. intros x _. apply reads_encode.
    - intros s. reflexivity. }
  specialize (H "" I). rewrite append_nil_r in H. rewrite H.
  cbn [app emit scan finish option_map]. now rewrite app_nil_r.
Qed.

(** X16: when the first page has a next page and the second page
    raises, what was written is the opening bracket and the items of
    the first page followed by a comma, the exception of the second
    page ends the command, and [json.loads] refuses the text
    written. *)
Theorem cut_short_output_not_json :
  forall page1 front members page2 e rest,
    Notions.is_page page1 (front ++ [JObj members]) false true ->
    forallb Notions.distinct_keys (front ++ [JObj members]) = true ->
    Cli.json_fragment page2 = inl e ->
    let out := Cli.filter_json (page1 :: page2 :: rest) Cli.start in
    stdout out = (("[" ++ LF) ++ "    " ++ Notions.items_text (front ++ [JObj members])
                  ++ ",") ++ LF
    /\ outcome out = Some e
    /\ JsonRead.loads (stdout out) = None.
Proof.
  intros page1 front members page2 e rest Hpage Hdistinct Hbad out.
  assert (stdout out = (("[" ++ LF) ++ "    "
                        ++ Notions.items_text (front ++ [JObj members]) ++ ",") ++ LF
          /\ outcome out = Some e) as [Hout Hexn].
  { subst out. rewrite (filter_json_cons _ _ _ _ (fragment_first _ _ _ Hpage)).
    cbn [Cli.filter_json]. rewrite Hbad. split; reflexivity. }
  repeat split; try assumption.
  rewrite Hout. unfold loads.
  rewrite tokens_cut_short by (destruct front; discriminate).
  set (xs := (front ++ [JObj members])%list) in *.
  assert (Forall parses xs) as Hall.
  { apply Forall_forall. intros x Hx. apply parse_toks.
    rewrite forallb_forall in Hdistinct. now apply Hdistinct. }
  assert (xs <> []) as Hne by (subst xs; destruct front; discriminate).
  set (inner := Notions.intercalate [TComma] (List.map Notions.toks xs)) in *.
  assert (exists t ts, inner = t :: ts /\ opens t) as (t & ts & Einner & Ht).
  { subst inner. destruct xs as [|x xs']; [contradiction|].
    destruct (toks_head x) as (t & ts & E & Ht).
    destruct xs'; cbn [List.map Notions.intercalate]; rewrite E; eexists; eexists;
      (split; [reflexivity | assumption]). }
  pose proof (parse_items_dangling xs Hall Hne (List.length (TLBrack :: inner ++ [TComma])))
    as Hnone.
  fold inner in Hnone. rewrite Einner in *. cbn [app] in *.
  rewrite (parse_array _ _ _ Ht). rewrite Hnone; [reflexivity|].
  cbn [List.length]. rewrite length_app. simpl. lia.
Qed.

Lemma cut_short_output_not_json_witness :
  JsonRead.loads
    (stdout (Cli.filter_json
               [ {| ok := true; text := "";
                    body := Some (JObj [("data", JArr [JObj [("a", JInt 1)]]);
                                        ("previous", JNull); ("next", JStr "cursor=2")]) |};
                 {| ok := false; text := "Bad Gateway"; body := None |} ] Cli.start))
  = None.
Proof.
  apply (cut_short_output_not_json _ [] [("a", JInt 1)] _
           (ClickException (JStr "Bad Gateway")) []).
  - split; [reflexivity|]. repeat eexists.
  - reflexivity.
  - reflexivity.
Defined.

(** ** More on the delimited output *)



Lemma dict_get_in {A : Type} (k : string) (v : A) (d : list (string * A)) :
  NoDup (List.map fst d) -> In (k, v) d -> Json.dict_get k d = Some v.
Proof.
  induction d as [|[k' v'] d IH]; intros Hnd Hin; [contradiction|].
  inversion Hnd as [|? ? Hnotin Hnd']; subst. simpl.
  destruct Hin as [[= -> ->] | Hin]; [now rewrite String.eqb_refl|].
  destruct (String.eqb_spec k' k) as [->|]; [|now apply IH].
  exfalso. apply Hnotin. apply (in_map fst) in Hin. exact Hin.
Qed.

Lemma dict_get_none {A : Type} (k : string) (d : list (string * A)) :
  Json.dict_get k d = None <-> ~ In k (List.map fst d).
Proof.
  induction d as [|[k' v'] d IH]; simpl; [tauto|].
  destruct (String.eqb_spec k' k) as [->|Hne].
  - split; [discriminate | intros H; exfalso; apply H; now left].
  - rewrite IH. split; [intros H [E|Hin]; [contradiction | now apply H] | tauto].
Qed.

Lemma dict_get_permutation {A : Type} (k : string) (d d' : list (string * A)) :
  Permutation d d' -> NoDup (List.map fst d) -> Json.dict_get k d' = Json.dict_get k d.
Proof.
  intros Hperm Hnd.
  assert (NoDup (List.map fst d')) as Hnd'
      by (eapply Permutation_NoDup; [apply Permutation_map; exact Hperm | exact Hnd]).
  destruct (Json.dict_get k d) as [v|] eqn:E.
  - apply dict_get_in; [assumption|]. apply (Permutation_in _ Hperm).
    clear Hnd' Hperm. induction d as [|[k' v'] d IH]; [discriminate|]. simpl in E.
    destruct (String.eqb_spec k' k) as [->|].
    + injection E as ->. now left.
    + right. apply IH; [now inversion Hnd | assumption].
  - apply dict_get_none. apply dict_get_none in E. intros Hin. apply E.
    apply (Permutation_in _ (Permutation_sym (Permutation_map fst Hperm))). exact Hin.
Qed.

(** X18: the row written for a record does not depend on the order
    of its keys: the columns are those of the writer. *)
Theorem writerow_order_irrelevant :
  forall writer kvs kvs',
    Permutation kvs kvs' ->
    NoDup (List.map fst kvs) ->
    Csv.writerow writer (JObj kvs') = Csv.writerow writer (JObj kvs).
Proof.
  intros writer kvs kvs' Hperm Hnd. unfold Csv.writerow.
  assert (forallb (fun k => existsb (String.eqb k) (Csv.fieldnames writer))
            (List.map fst kvs')
          = forallb (fun k => existsb (String.eqb k) (Csv.fieldnames writer))
              (List.map fst kvs)) as ->.
  { apply eq_true_iff_eq. rewrite !forallb_forall. split; intros H k Hin; apply H.
    - apply (Permutation_in _ (Permutation_map fst Hperm)). exact Hin.
    - apply (Permutation_in _ (Permutation_sym (Permutation_map fst Hperm))). exact Hin. }
  destruct (forallb _ _); [|reflexivity]. do 2 f_equal.
  apply map_ext. intros k. now rewrite (dict_get_permutation k kvs kvs' Hperm Hnd).
Qed.

Lemma writerow_order_irrelevant_witness :
  Csv.writerow {| Csv.delimiter := ","%char; Csv.fieldnames := ["a"; "b"] |}
    (JObj [("b", JStr "2"); ("a", JStr "1")])
  = Csv.writerow {| Csv.delimiter := ","%char; Csv.fieldnames := ["a"; "b"] |}
      (JObj [("a", JStr "1"); ("b", JStr "2")]).
Proof.
  apply writerow_order_irrelevant.
  - apply perm_swap.
  - repeat constructor; simpl; intuition discriminate.
Defined.

(** ** More on the criteria *)

Lemma split_clean (sep : ascii) (s : string) :
  PyStr.contains sep s = false -> PyStr.split sep s = [s].
Proof.
  induction s as [|c s IH]; simpl; [reflexivity|].
  destruct (Ascii.eqb c sep); simpl; [discriminate|].
  intros H. now rewrite IH.
Qed.

Lemma split_at (sep : ascii) (a b : string) :
  PyStr.contains sep a = false ->
  PyStr.split sep (a ++ String sep b) = a :: PyStr.split sep b.
Proof.
  induction a as [|c a IH]; simpl.
  - intros _. now rewrite Ascii.eqb_refl.
  - destruct (Ascii.eqb c sep); simpl; [discriminate|].
    intros H. now rewrite IH.
Qed.

Lemma parse_joined_criterion :
  forall name value,
    PyStr.contains "=" name = false ->
    PyStr.contains "=" value = false ->
    Cli.parse_criterion (name ++ "=" ++ value) = inr (name, value).
Proof.
  intros name value Hname Hvalue. unfold Cli.parse_criterion.
  change (name ++ "=" ++ value) with (name ++ String "=" value).
  now rewrite (split_at _ _ _ Hname), (split_clean _ _ Hvalue).
Qed.

(** X19: a criterion made of a name and a value that hold no [=],
    joined by [=], is cut back into that name and that value. *)
Theorem criterion_round_trip :
  forall name value,
    PyStr.contains "=" name = false ->
    PyStr.contains "=" value = false ->
    Cli.parse_criterion (name ++ "=" ++ value) = inr (name, value).
Proof. exact parse_joined_criterion. Qed.

Lemma criterion_round_trip_witness :
  Cli.parse_criterion ("run.date" ++ "=" ++ "2023-01-01") = inr ("run.date", "2023-01-01").
Proof. apply criterion_round_trip; reflexivity. Defined.

Lemma setdefault_append_total (name value : string) fields :
  total_values (Cli.setdefault_append name value fields) = S (total_values fields).
Proof.
  unfold total_values. induction fields as [|[k vs] r IH]; [reflexivity|].
  cbn [Cli.setdefault_append]. destruct (k =? name);
    cbn [List.map snd List.concat]; rewrite ?length_app; cbn [List.length]; lia.
Qed.

Lemma setdefault_append_filled (name value : string) fields :
  Forall (fun e => snd e <> []) fields ->
  Forall (fun e => snd e <> []) (Cli.setdefault_append name value fields).
Proof.
  induction 1 as [|[k vs] r Hk Hr IH]; simpl.
  - constructor; [discriminate | constructor].
  - destruct (k =? name); constructor; try assumption.
    simpl. destruct vs; discriminate.
Qed.

Lemma add_criteria_total (cs : list string) :
  forall fields0 fields,
    Cli.add_criteria cs fields0 = inr fields ->
    Forall (fun e => snd e <> []) fields0 ->
    total_values fields = total_values fields0 + List.length cs
    /\ Forall (fun e => snd e <> []) fields.
Proof.
  induction cs as [|c cs IH]; intros fields0 fields; simpl.
  - intros [= <-] H. split; [lia | assumption].
  - destruct (Cli.parse_criterion c) as [e|[name value]]; [discriminate|].
    intros H Hfilled.
    destruct (IH _ _ H (setdefault_append_filled _ value _ Hfilled)) as [Htotal Hall].
    rewrite setdefault_append_total in Htotal. split; [lia | assumption].
Qed.

(** X20: when the criteria are accepted, the mapping holds as many
    values as there are criteria, and no entry of it is empty. *)
Theorem criteria_values_kept :
  forall field fields,
    Cli.build_fields field = inr fields ->
    List.length (List.concat (List.map snd fields))
    = List.length (Notions.criteria field)
    /\ Forall (fun e => snd e <> []) fields.
Proof.
  intros field fields H.
  assert (Cli.add_criteria (Notions.criteria field) [] = inr fields) as H'.
  { destruct field as [[|c cs]|]; simpl in *; try assumption; now inversion H. }
  destruct (add_criteria_total _ _ _ H' ltac:(constructor)) as [Htotal Hall].
  split; [exact Htotal | exact Hall].
Qed.

Lemma criteria_values_kept_witness :
  List.length (List.concat (List.map snd [("a__b", ["1"; "3"]); ("c", ["2"])])) = 3.
Proof.
  apply (criteria_values_kept (Some ["a.b=1"; "c=2"; "a.b=3"])
           [("a__b", ["1"; "3"]); ("c", ["2"])] eq_refl).
Defined.

Lemma contains_replace (c old : ascii) (new s : string) :
  PyStr.contains c new = false ->
  PyStr.contains c s = false ->
  PyStr.contains c (PyStr.replace old new s) = false.
Proof.
  intros Hnew. induction s as [|a s IH]; simpl; [reflexivity|].
  intros H. apply orb_false_iff in H as [Ha Hs].
  destruct (Ascii.eqb a old).
  - now rewrite contains_append, Hnew, IH.
  - simpl. now rewrite Ha, IH.
Qed.

(** X21: a criterion on a dotted name and a criterion on the name
    with the dots already written as [__] are the same field: their
    values are gathered in one entry. *)
Theorem dotted_and_underscored_collide :
  forall name v w,
    PyStr.contains "=" name = false ->
    PyStr.contains "=" v = false ->
    PyStr.contains "=" w = false ->
    Cli.build_fields
      (Some [name ++ "=" ++ v; PyStr.replace "." "__" name ++ "=" ++ w])
    = inr [(PyStr.replace "." "__" name, [v; w])].
Proof.
  intros name v w Hname Hv Hw. unfold Cli.build_fields. cbn [Cli.add_criteria].
  rewrite (parse_joined_criterion _ _ Hname Hv).
  rewrite (parse_joined_criterion _ _
             (contains_replace "=" "." "__" name eq_refl Hname) Hw).
  rewrite (replace_absent "." "__" (PyStr.replace "." "__" name))
    by now apply replace_no_old.
  cbn [Cli.setdefault_append]. now rewrite String.eqb_refl.
Qed.

Lemma dotted_and_underscored_collide_witness :
  Cli.build_fields (Some ["a.b" ++ "=" ++ "1"; PyStr.replace "." "__" "a.b" ++ "=" ++ "2"])
  = inr [(PyStr.replace "." "__" "a.b", ["1"; "2"])].
Proof. apply dotted_and_underscored_collide; reflexivity. Defined.

(** ** The JSON output is plain text *)

Lemma plain_append (a b : string) :
  plain_text (a ++ b) = plain_text a && plain_text b.
Proof.
  induction a as [|c a IH]; simpl; [reflexivity|]. now rewrite IH, andb_assoc.
Qed.

Lemma plain_spaces (n : nat) : plain_text (PyStr.spaces n) = true.
Proof. induction n; simpl; [reflexivity | assumption]. Qed.

Lemma plain_encode_char (c : ascii) : plain_text (Json.encode_char c) = true.
Proof. destruct c as [[] [] [] [] [] [] [] []]; reflexivity. Qed.

Lemma plain_encode_string (s : string) : plain_text (Json.encode_string s) = true.
Proof.
  unfold Json.encode_string. rewrite !plain_append.
  assert (plain_text (Json.encode_chars s) = true) as ->; [|reflexivity].
  induction s as [|c s IH]; simpl; [reflexivity|].
  now rewrite plain_append, plain_encode_char, IH.
Qed.

Lemma plain_number_char (c : ascii) : is_number_char c = true -> plain_char c = true.
Proof. destruct c as [[] [] [] [] [] [] [] []]; intros H; try discriminate H; reflexivity. Qed.

Lemma plain_number_text (s : string) :
  Notions.number_text s = true -> plain_text s = true.
Proof.
  induction s as [|c s IH]; simpl; [reflexivity|].
  intros H. apply andb_true_iff in H as [Hc Hs].
  now rewrite (plain_number_char _ Hc), IH.
Qed.

Lemma plain_join (sep : string) (parts : list string) :
  plain_text sep = true ->
  Forall (fun p => plain_text p = true) parts ->
  plain_text (PyStr.join sep parts) = true.
Proof.
  intros Hsep. induction 1 as [|p parts Hp Hparts IH]; [reflexivity|].
  destruct parts as [|q parts]; [exact Hp|].
  rewrite join_cons by discriminate. now rewrite !plain_append, Hp, Hsep, IH.
Qed.

Lemma plain_newline_indent (indent level : nat) :
  plain_text (Json.newline_indent indent level) = true.
Proof. unfold Json.newline_indent. simpl. apply plain_spaces. Qed.

Lemma plain_encode (indent : nat) (v : json) :
  forall level, plain_text (Json.encode indent level v) = true.
Proof.
  induction v as [| b | z | str | xs IH | kvs IH] using json_induction; intros level.
  - reflexivity.
  - now destruct b.
  - apply plain_number_text, of_int_number_text.
  - apply plain_encode_string.
  - destruct xs as [|x xs]; [reflexivity|]. cbn [Json.encode].
    rewrite !plain_append, !plain_newline_indent, plain_join; [reflexivity | |].
    + now rewrite plain_append, plain_newline_indent.
    + apply Forall_map. eapply Forall_impl; [|exact IH]. intros a Ha. apply Ha.
  - destruct kvs as [|kv kvs]; [reflexivity|]. cbn [Json.encode].
    rewrite !plain_append, !plain_newline_indent, plain_join; [reflexivity | |].
    + now rewrite plain_append, plain_newline_indent.
    + apply Forall_map. eapply Forall_impl; [|exact IH]. intros a Ha.
      now rewrite !plain_append, plain_encode_string, Ha.
Qed.

Lemma plain_drop (n : nat) (s : string) :
  plain_text s = true -> plain_text (PyStr.drop n s) = true.
Proof.
  revert s. induction n as [|n IH]; intros s H; [exact H|].
  destruct s as [|c s]; [reflexivity|]. simpl in *.
  apply andb_true_iff in H as [_ H]. now apply IH.
Qed.

Lemma plain_substring (n m : nat) (s : string) :
  plain_text s = true -> plain_text (substring n m s) = true.
Proof.
  revert n m. induction s as [|c s IH]; intros n m H.
  - now destruct n, m.
  - simpl in H. apply andb_true_iff in H as [Hc Hs].
    destruct n as [|n]; simpl.
    + destruct m as [|m]; [reflexivity|]. simpl. now rewrite Hc, IH.
    + now apply IH.
Qed.

Lemma json_fragment_plain (page : response) (fragment : string) :
  Cli.json_fragment page = inr fragment -> plain_text fragment = true.
Proof.
  unfold Cli.json_fragment.
  destruct (ok page); [|discriminate].
  destruct (body page) as [result_json|]; [|discriminate].
  destruct (Json.getitem result_json "data") as [|data]; [discriminate|].
  destruct (Json.getitem result_json "previous") as [|previous]; [discriminate|].
  pose proof (plain_encode 4 data 0) as Hdump. fold (Json.dumps 4 data) in Hdump.
  unfold Cli.continue_fragment.
  assert (forall rendered,
             plain_text rendered = true ->
             match Json.getitem result_json "next" with
             | inl e => inl e
             | inr next => Cli.suspend_fragment next rendered
             end = inr fragment ->
             plain_text fragment = true) as Hnext.
  { intros rendered Hr. destruct (Json.getitem result_json "next") as [|next];
      [discriminate|].
    unfold Cli.suspend_fragment. destruct (Json.truthy next); [|now intros [= <-]].
    destruct (negb _); [discriminate|]. intros [= <-].
    rewrite plain_append. unfold PyStr.removesuffix.
    destruct (PyStr.endswith _ rendered); [now rewrite plain_substring | now rewrite Hr]. }
  destruct (Json.truthy previous); [|now apply Hnext].
  destruct (negb _); [discriminate|]. apply Hnext.
  unfold PyStr.removeprefix. destruct (PyStr.startswith _ _); [now apply plain_drop | assumption].
Qed.

(** X22: the JSON output of [filter] adds only printable ASCII
    characters and line feeds to standard output, whatever the pages
    hold. *)
Theorem json_output_plain :
  forall pages st,
    plain_text (stdout st) = true ->
    plain_text (stdout (Cli.filter_json pages st)) = true.
Proof.
  induction pages as [|page pages IH]; intros st Hst; [exact Hst|].
  cbn [Cli.filter_json].
  destruct (Cli.json_fragment page) as [e|fragment] eqn:E; [exact Hst|].
  apply IH. unfold Cli.echo, Cli.fetched. cbn [stdout].
  now rewrite !plain_append, Hst, (json_fragment_plain _ _ E).
Qed.

Lemma json_output_plain_witness :
  plain_text (stdout (Cli.filter_json Notions.two_json_pages Cli.start)) = true.
Proof. apply json_output_plain. reflexivity. Defined.

(** X23: the text [get] writes holds only printable ASCII characters
    and line feeds. *)
Theorem get_output_plain :
  forall record text,
    Commands.get (Returned record) = inr text -> plain_text text = true.
Proof.
  intros record text [= <-]. rewrite plain_append. unfold Json.dumps.
  now rewrite plain_encode.
Qed.

Lemma get_output_plain_witness :
  plain_text (Json.dumps 4 (JStr (String "233" "t" ++ String ch_tab "")) ++ LF) = true.
Proof.
  apply (get_output_plain (JStr (String "233" "t" ++ String ch_tab ""))). reflexivity.
Defined.

(** ** The tables of users *)

(** X24: the table that [siteusers], [allusers], [waiting] or
    [profile] prints has one row per user, every row with one cell per
    column, and its first columns are Username, Email and Site. *)
Theorem user_tables :
  forall users table,
    (Commands.siteusers (Returned users) = inr table
     \/ Commands.allusers (Returned users) = inr table
     \/ Commands.waiting (Returned users) = inr table
     \/ exists user, users = [user] /\ Commands.profile (Returned user) = inr table) ->
    List.length (t_rows table) = List.length users
    /\ Forall (fun cells => List.length cells = List.length (t_columns table))
         (t_rows table)
    /\ exists more, t_columns table = ("Username" :: "Email" :: "Site" :: more)%list.
Proof.
  intros users table H.
  assert (exists map more,
             Commands.create_table users map None = inr table
             /\ List.map fst map = ("Username" :: "Email" :: "Site" :: more)%list)
    as (map & more & Htable & Hmap).
  { destruct H as [H | [H | [H | (user & -> & H)]]].
    - exists Commands.users_map, []. now split.
    - exists Commands.users_map, []. now split.
    - exists Commands.waiting_map, ["Date Joined"]. now split.
    - exists Commands.users_map, []. now split. }
  destruct (create_table_shape _ _ _ _ Htable) as (Hcolumns & Hrows & Hall).
  repeat split; try assumption. exists more. now rewrite Hcolumns.
Qed.

Lemma user_tables_witness :
  List.length (t_rows {| t_caption := None; t_columns := ["Username"; "Email"; "Site"];
                         t_rows := [[JStr "ada"; JStr "ada@lab.org"; JStr "lab"]] |})
  = List.length [[("username", JStr "ada"); ("email", JStr "ada@lab.org");
                  ("site", JStr "lab")]].
Proof.
  apply (user_tables [[("username", JStr "ada"); ("email", JStr "ada@lab.org");
                       ("site", JStr "lab")]]).
  left. reflexivity.
Defined.

(** ** A result set of one page *)

(** X25: a page with neither a previous nor a next page is written as
    [json.dumps] renders its [data], whatever value that is, followed
    by a newline, after one request and without error; [json.loads]
    reads [data] back from the text. *)
Theorem single_page_any_data :
  forall page result_json data previous next,
    ok page = true ->
    body page = Some result_json ->
    Json.getitem result_json "data" = inr data ->
    Json.getitem result_json "previous" = inr previous ->
    Json.getitem result_json "next" = inr next ->
    Json.truthy previous = false ->
    Json.truthy next = false ->
    Cli.filter_json [page] Cli.start
    = {| stdout := Json.dumps 4 data ++ LF; requests := 1; outcome := None |}
    /\ (Notions.distinct_keys data = true ->
        JsonRead.loads (Json.dumps 4 data ++ LF) = Some data).
Proof.
  intros page result_json data previous next Hok Hbody Hdata Hprev Hnext Hp Hn. split.
  - cbn [Cli.filter_json].
    rewrite (json_fragment_ok _ _ _ _ _ Hok Hbody Hdata Hprev Hnext).
    unfold Cli.continue_fragment, Cli.suspend_fragment. now rewrite Hp, Hn.
  - intros Hdistinct. apply loads_encode; [assumption | reflexivity | exact eq_refl].
Qed.

Lemma single_page_any_data_witness :
  Cli.filter_json
    [ {| ok := true; text := "";
         body := Some (JObj [("data", JObj [("count", JInt 0)]);
                             ("previous", JNull); ("next", JNull)]) |} ] Cli.start
  = {| stdout := Json.dumps 4 (JObj [("count", JInt 0)]) ++ LF;
       requests := 1; outcome := None |}.
Proof.
  apply (single_page_any_data _ (JObj [("data", JObj [("count", JInt 0)]);
                                       ("previous", JNull); ("next", JNull)])
           (JObj [("count", JInt 0)]) JNull JNull); reflexivity.
Defined.

(** ** Partial output, then the error of a page *)

Lemma fragment_text result result_json data previous next :
  ok result = true ->
  body result = Some result_json ->
  Json.getitem result_json "data" = inr data ->
  Json.getitem result_json "previous" = inr previous ->
  Json.getitem result_json "next" = inr next ->
  (Json.truthy previous = true -> exists x xs, data = JArr (x :: xs)) ->
  (Json.truthy next = true ->
   exists front members, data = JArr (front ++ [JObj members])) ->
  exists core,
    Json.dumps 4 data
    = (if Json.truthy previous then "[" ++ LF else "")
      ++ core ++ (if Json.truthy next then "}" ++ LF ++ "]" else "")
    /\ Cli.json_fragment result
       = inr (core ++ (if Json.truthy next then "}," else "")).
Proof.
  intros Hok Hbody Hdata Hprev Hnext Hopen Hclose.
  rewrite (json_fragment_ok _ _ _ _ _ Hok Hbody Hdata Hprev Hnext).
  unfold Cli.continue_fragment, Cli.suspend_fragment.
  destruct (Json.truthy previous); destruct (Json.truthy next).
  - pose proof (proj2 (opening_text_iff data) (Hopen eq_refl)) as Hstart.
    pose proof (proj2 (closing_text_iff data) (Hclose eq_refl)) as Hend.
    rewrite Hstart. cbn [negb].
    apply startswith_inv in Hstart as [r Hr]. rewrite Hr in *.
    rewrite endswith_after_open in Hend. rewrite removeprefix_append, Hend.
    cbn [negb]. apply endswith_inv in Hend as [core ->].
    exists core. split; [reflexivity | now rewrite removesuffix_append].
  - pose proof (proj2 (opening_text_iff data) (Hopen eq_refl)) as Hstart.
    rewrite Hstart. cbn [negb].
    apply startswith_inv in Hstart as [r Hr]. rewrite Hr, removeprefix_append.
    exists r. now rewrite !append_nil_r.
  - pose proof (proj2 (closing_text_iff data) (Hclose eq_refl)) as Hend.
    rewrite Hend. cbn [negb]. apply endswith_inv in Hend as [core Hcore].
    rewrite Hcore, removesuffix_append. exists core. split; reflexivity.
  - exists (Json.dumps 4 data). now rewrite !append_nil_r.
Qed.

Lemma writerow_filled (delim : ascii) (keys : list string)
      (kvs : list (string * json)) :
  incl (map fst kvs) keys ->
  Csv.writerow {| Csv.delimiter := delim; Csv.fieldnames := keys |} (JObj kvs)
  = inr (filled_line delim keys kvs).
Proof.
  intros Hincl. unfold Csv.writerow, filled_line. cbn [Csv.fieldnames Csv.delimiter].
  assert (forallb (fun k => existsb (String.eqb k) keys) (map fst kvs) = true) as ->;
    [|reflexivity].
  apply forallb_forall. intros k Hin. apply existsb_exists.
  exists k. split; [now apply Hincl | apply String.eqb_refl].
Qed.

Lemma write_rows_filled (delim : ascii) (keys : list string)
      (recs : list (list (string * json))) (rest : records) :
  Forall (fun kvs => incl (map fst kvs) keys) recs ->
  forall st,
    Cli.write_rows {| Csv.delimiter := delim; Csv.fieldnames := keys |}
      (Notions.yield_all recs rest) st
    = Cli.write_rows {| Csv.delimiter := delim; Csv.fieldnames := keys |} rest
        (Cli.write (String.concat "" (map (filled_line delim keys) recs)) st).
Proof.
  induction 1 as [|kvs recs Hkeys Hall IH]; intros st.
  - simpl. unfold Cli.write. rewrite append_nil_r. now destruct st.
  - cbn [Notions.yield_all fold_right Cli.write_rows].
    rewrite (writerow_filled _ _ _ Hkeys). fold (Notions.yield_all recs rest).
    rewrite IH. f_equal. unfold Cli.write. cbn [stdout requests outcome map].
    f_equal. now rewrite concat_cons, append_assoc.
Qed.

(** C4 (as amended): when the first page is ok, its body holds [data],
    [previous] and [next], and [data] passes the checks that apply to
    it (a non-empty array when the page has a previous page, an array
    that ends with an object when it has a next page), and the second
    page is not ok, the JSON output is the fragment of the first page
    (the pretty-printed [data] without the opening bracket and with
    the closing bracket replaced, as apply) and a newline, and the
    command then ends, after two requests, with the error of the
    second page.  When the generator of records yields the records of
    the first page, of which the first is not empty and no later one
    has a key the first one lacks, and then raises for the second
    page, the delimited output holds the header and the rows of the
    first page, and the command ends in the same way. *)
Theorem C4_partial_output_then_error :
  (forall page1 page2 rest result_json data previous next,
      ok page1 = true ->
      body page1 = Some result_json ->
      Json.getitem result_json "data" = inr data ->
      Json.getitem result_json "previous" = inr previous ->
      Json.getitem result_json "next" = inr next ->
      (Json.truthy previous = true -> exists x xs, data = JArr (x :: xs)) ->
      (Json.truthy next = true ->
       exists front members, data = JArr (front ++ [JObj members])) ->
      ok page2 = false ->
      exists core,
        Json.dumps 4 data
        = (if Json.truthy previous then "[" ++ LF else "")
          ++ core ++ (if Json.truthy next then "}" ++ LF ++ "]" else "")
        /\ Cli.filter_json (page1 :: page2 :: rest) Cli.start
           = {| stdout := (core ++ (if Json.truthy next then "}," else "")) ++ LF;
                requests := 2;
                outcome := Some (Cli.cli_error page2) |})
  /\ (forall format recs page2,
         format <> JSON ->
         writable recs ->
         Cli.filter_delimited format
           (RFetch (Notions.yield_all recs (RFetch (RRaise page2)))) Cli.start
         = {| stdout := rows_text format recs;
              requests := 2;
              outcome := Some (Cli.cli_error page2) |}).
Proof.
  split.
  - intros page1 page2 rest result_json data previous next
           Hok Hbody Hdata Hprev Hnext Hopen Hclose Hbad.
    destruct (fragment_text _ _ _ _ _ Hok Hbody Hdata Hprev Hnext Hopen Hclose)
      as (core & Htext & Hfrag).
    exists core. split; [exact Htext|].
    cbn [Cli.filter_json]. rewrite Hfrag.
    unfold Cli.json_fragment at 1. rewrite Hbad. reflexivity.
  - intros format recs page2 Hformat Hrecs.
    destruct recs as [|first recs]; [reflexivity|].
    destruct Hrecs as [Hfirst Hrest].
    unfold Cli.filter_delimited.
    cbn [Notions.yield_all fold_right Cli.next_record].
    assert (Json.truthy (JObj first) = true) as ->
        by (destruct first; [contradiction | reflexivity]).
    fold (Notions.yield_all recs (RFetch (RRaise page2))).
    assert (match format with TSV => ch_tab | _ => ","%char end
            = Notions.delimiter_of format) as -> by reflexivity.
    rewrite (writerow_filled _ _ first (incl_refl _)).
    rewrite (write_rows_filled _ _ _ _ Hrest).
    unfold rows_text, Csv.writeheader.
    cbn [Cli.write_rows Csv.delimiter Csv.fieldnames map].
    unfold Cli.raise, Cli.fetched, Cli.write, Cli.start.
    cbn [stdout requests outcome append].
    now rewrite concat_cons, !append_assoc.
Qed.

Lemma C4_witness :
  (exists core,
      Json.dumps 4 (JArr [JObj [("a", JStr "1")]])
      = (if Json.truthy JNull then "[" ++ LF else "")
        ++ core ++ (if Json.truthy (JStr "page=2") then "}" ++ LF ++ "]" else "")
      /\ Cli.filter_json
           [ {| ok := true; text := "";
                body := Some (JObj [("data", JArr [JObj [("a", JStr "1")]]);
                                    ("previous", JNull); ("next", JStr "page=2")]) |};
             error_page ] Cli.start
         = {| stdout := (core ++ (if Json.truthy (JStr "page=2") then "}," else ""))
                        ++ LF;
              requests := 2;
              outcome := Some (Cli.cli_error error_page) |})
  /\ Cli.filter_delimited CSV
       (RFetch (Notions.yield_all [[("a", JStr "1"); ("b", JNull)]; [("b", JStr "2")]]
                  (RFetch (RRaise error_page))))
       Cli.start
     = {| stdout := rows_text CSV [[("a", JStr "1"); ("b", JNull)]; [("b", JStr "2")]];
          requests := 2;
          outcome := Some (Cli.cli_error error_page) |}.
Proof.
  split.
  - apply (proj1 C4_partial_output_then_error
             {| ok := true; text := "";
                body := Some (JObj [("data", JArr [JObj [("a", JStr "1")]]);
                                    ("previous", JNull); ("next", JStr "page=2")]) |}
             error_page []
             (JObj [("data", JArr [JObj [("a", JStr "1")]]);
                    ("previous", JNull); ("next", JStr "page=2")])
             (JArr [JObj [("a", JStr "1")]]) JNull (JStr "page=2"));
      try reflexivity.
    + discriminate.
    + intros _. now exists [], [("a", JStr "1")].
  - apply (proj2 C4_partial_output_then_error CSV
             [[("a", JStr "1"); ("b", JNull)]; [("b", JStr "2")]] error_page).
    + discriminate.
    + split; [discriminate|]. constructor; [|constructor].
      intros k [<-|[]]. right. now left.
Defined.

Lemma C4_counterexample :
  ok numbers_page = true
  /\ ok error_page = false
  /\ Cli.filter_json [numbers_page; error_page] Cli.start
     = {| stdout := "";
          requests := 1;
          outcome := Some (PyException "Response JSON has invalid end character(s).") |}
  /\ outcome (Cli.filter_json [numbers_page; error_page] Cli.start)
     <> Some (Cli.cli_error error_page)
  /\ Cli.filter_delimited CSV
       (RFetch (Notions.yield_all [[]; [("a", JStr "1")]] (RFetch (RRaise error_page))))
       Cli.start
     = {| stdout := ""; requests := 1; outcome := None |}
  /\ Cli.filter_delimited CSV
       (RFetch (Notions.yield_all [[("a", JStr "1")]; [("b", JStr "2")]]
                  (RFetch (RRaise error_page))))
       Cli.start
     = {| stdout := "a" ++ CRLF ++ "1" ++ CRLF;
          requests := 1;
          outcome := Some ValueError |}.
Proof.
  repeat split; try reflexivity. discriminate.
Qed.
